(** * ts-tvl: functional model of the TROPIC01 host protocol

    Shallow embedding of [tvl/messages/datafield.py] (wire codec of a
    message field) and of [tvl/targets/model/base_model.py] (dispatcher,
    effective configuration, access privileges, session handling), with the
    properties of the specification stated and proved over them. *)

From Stdlib Require Import ZArith List Lia Bool Ascii.
From Stdlib Require Import Strings.Byte.
From stdpp Require Import base option list gmap.

Local Open Scope Z_scope.

(** ** Exceptions and results

    Python raises; the embedding returns.  [res A] is either the value a
    call returns or the exception it raises.  The exception classes are the
    ones the two source files raise or catch, next to the two conditions
    the specification names for a register write ([InvalidBitIndex],
    [InvalidAddress]).  [SubclassNotFoundError] and [NoValidSubclassError]
    are taken as unrelated classes: neither [except] clause of the
    dispatcher catches the other's exception.  [L2ProcessingError status]
    stands for that class and its subclasses, which carry a status. *)

(** Modelled from the spec: [L2StatusEnum] of the absent [constants]
    module, with the status codes the specification lists. *)
Inductive L2StatusEnum : Type :=
| REQ_OK
| GEN_ERR
| CRC_ERR
| UNKNOWN_REQ.

Inductive exn : Type :=
| TypeNotSupportedError
| ListTooLongError
| DataValueError
| AssertionError
| RuntimeError
| NotImplementedError
| SubclassNotFoundError
| NoValidSubclassError
| L2ProcessingError (status : L2StatusEnum)
| L3ProcessingErrorUnauthorized
| InvalidBitIndex
| InvalidAddress
| OtherError (tag : Z).

Inductive res (A : Type) : Type :=
| Ret (a : A)
| Raise (e : exn).

Arguments Ret {A} a.
Arguments Raise {A} e.

Definition bytes : Type := list Byte.byte.

Definition Z_of_byte (b : Byte.byte) : Z := Z.of_N (Byte.to_N b).

Definition byte_of_Z (z : Z) : Byte.byte :=
  match Byte.of_N (Z.to_N z) with
  | Some b => b
  | None => Byte.x00
  end.

(** ** [struct.pack] / [struct.unpack] for the unsigned formats B, H, I, Q *)

Module Struct.

(** [w] bytes of [v], least significant first. *)
Fixpoint le_bytes (w : nat) (v : Z) : bytes :=
  match w with
  | O => []
  | S w' => byte_of_Z (v mod 256) :: le_bytes w' (v / 256)
  end.

Fixpoint le_int (bs : bytes) : Z :=
  match bs with
  | [] => 0
  | b :: bs' => Z_of_byte b + 256 * le_int bs'
  end.

End Struct.

(** ** tvl/messages/endianness.py *)

Inductive Endianness : Type := little | big.

(** ** tvl/messages/datafield.py *)

Inductive Dtype : Type := UINT8 | UINT16 | UINT32 | UINT64.

Definition nb_bytes (d : Dtype) : nat :=
  match d with
  | UINT8 => 1
  | UINT16 => 2
  | UINT32 => 4
  | UINT64 => 8
  end%nat.

Record Params : Type := mkParams {
  dtype : Dtype;
  min_size : Z;
  max_size : Z
}.

(** [Params.__post_init__]: [size], when given, overrides both bounds; then
    the three checks, each raising [ParamError] (here [None]). *)
Definition Params_init (d : Dtype) (size : option Z) (mn mx : Z) : option Params :=
  let mn' := match size with Some s => s | None => mn end in
  let mx' := match size with Some s => s | None => mx end in
  if mn' <? 0 then None
  else if mx' <? 1 then None
  else if mx' <? mn' then None
  else Some (mkParams d mn' mx').

Definition has_variable_size (p : Params) : bool :=
  negb (min_size p =? max_size p).

Section Codec.

(** The process-wide setting [endianness]. *)
Variable endianness : Endianness.

Definition encode_int (d : Dtype) (v : Z) : bytes :=
  match endianness with
  | little => Struct.le_bytes (nb_bytes d) v
  | big => rev (Struct.le_bytes (nb_bytes d) v)
  end.

Definition decode_int (bs : bytes) : Z :=
  match endianness with
  | little => Struct.le_int bs
  | big => Struct.le_int (rev bs)
  end.

Definition fits (d : Dtype) (v : Z) : bool :=
  (0 <=? v) && (v <? 2 ^ (8 * Z.of_nat (nb_bytes d))).

(** [struct.pack(f"{fmt}{len(values)}{dtype}", *values)]; [None] stands
    for [struct.error], raised when an argument is out of range. *)
Fixpoint struct_pack (d : Dtype) (values : list Z) : option bytes :=
  match values with
  | [] => Some []
  | v :: vs =>
      if fits d v then
        match struct_pack d vs with
        | Some bs => Some (encode_int d v ++ bs)
        | None => None
        end
      else None
  end.

(** [struct.unpack(f"{fmt}{dtype}", value)]: one element, and
    [struct.error] unless the buffer has exactly the format's size. *)
Definition struct_unpack_one (d : Dtype) (value : bytes) : option (list Z) :=
  if Nat.eqb (length value) (nb_bytes d) then Some [decode_int value] else None.

(** [struct.unpack(f"{fmt}{len(value)}B", value)]: never fails. *)
Definition struct_unpack_u8 (value : bytes) : list Z := map Z_of_byte value.

Inductive DataFieldInputData : Type :=
| AUTO
| VInt (v : Z)
| VBytes (b : bytes)
| VList (l : list Z)
| VOther.

(** The attribute [_value]: a list of ints, or the singleton [AUTO]. *)
Inductive StoredValue : Type :=
| SAuto
| SList (l : list Z).

Record DataField : Type := mkDataField {
  params : Params;
  _value : StoredValue
}.

Definition _format_to_list (value : DataFieldInputData) (instance : DataField)
  : res (list Z) :=
  match value with
  | VInt v => Ret [v]
  | VBytes b =>
      match struct_unpack_one (dtype (params instance)) b with
      | Some l => Ret l
      | None => Ret (struct_unpack_u8 b)
      end
  | VList l => Ret l
  | AUTO =>
      (* [_AUTO] subclasses [bytes]: an empty buffer *)
      match struct_unpack_one (dtype (params instance)) [] with
      | Some l => Ret l
      | None => Ret (struct_unpack_u8 [])
      end
  | VOther => Raise TypeNotSupportedError
  end.

(** [ValueDescriptor.__set__]: the outcome and the instance afterwards. *)
Definition __set__ (instance : DataField) (value : DataFieldInputData)
  : res unit * DataField :=
  match value with
  | AUTO => (Ret tt, mkDataField (params instance) SAuto)
  | _ =>
      match _format_to_list value instance with
      | Raise e => (Raise e, instance)
      | Ret value =>
          let length := Z.of_nat (length value) in
          if length >? max_size (params instance) then
            (Raise ListTooLongError, instance)
          else
            let min_length :=
              if has_variable_size (params instance)
              then min_size (params instance)
              else max_size (params instance) in
            let padding_length := min_length - length in
            let value :=
              if padding_length >? 0
              then value ++ replicate (Z.to_nat padding_length) 0
              else value in
            (Ret tt, mkDataField (params instance) (SList value))
      end
  end.

(** [DataField.__len__]. *)
Definition __len__ (instance : DataField) : Z :=
  match _value instance with
  | SAuto => min_size (params instance) * Z.of_nat (nb_bytes (dtype (params instance)))
  | SList l => Z.of_nat (length l) * Z.of_nat (nb_bytes (dtype (params instance)))
  end.

(** [DataField.to_bytes]. *)
Definition to_bytes (instance : DataField) : res bytes :=
  match _value instance with
  | SAuto => Raise AssertionError
  | SList l =>
      match struct_pack (dtype (params instance)) l with
      | Some bs => Ret bs
      | None => Raise DataValueError
      end
  end.

End Codec.

(** ** tvl/targets/model/base_model.py *)

(** Modelled from the spec: [S_HI_PUB_NB_SLOTS] of the absent [constants]
    module; there are exactly 4 pairing-key slots, indexed 0 to 3. *)
Definition S_HI_PUB_NB_SLOTS : Z := 4.

(** Modelled from the spec: [ConfigurationObjectImpl], absent from the
    sources: a bank mapping register addresses to 32-bit values. *)
Abbreviation ConfigurationObjectImpl := (gmap Z Z).

(** Modelled from the spec: [ConfigurationObjectImpl.__and__]; the effective
    value of a register is the irreversible value AND the reversible one. *)
Definition cfg_and (i r : ConfigurationObjectImpl) : ConfigurationObjectImpl :=
  intersection_with (fun a b => Some (Z.land a b)) i r.

(** Modelled from the spec: [TropicEncryptedSession], absent from the
    sources: the state flag, the two derived directional keys and the two
    sequence counters. *)
Record TropicEncryptedSession : Type := mkSession {
  established : bool;
  key_command : option bytes;
  key_result : option bytes;
  nonce_command : Z;
  nonce_result : Z
}.

(** Modelled from the spec: [TropicEncryptedSession.reset]; derived keys are
    dropped, counters restart and the state is unestablished. *)
Definition session_reset (s : TropicEncryptedSession) : TropicEncryptedSession :=
  mkSession false None None 0 0.

(** Modelled from the spec: [CommandBuffer], absent from the sources: the
    most recently produced response, if any. *)
Record CommandBuffer : Type := mkCommandBuffer {
  latest_response : option bytes
}.

(** Modelled from the spec: [CommandBuffer.reset]. *)
Definition command_buffer_reset (b : CommandBuffer) : CommandBuffer :=
  mkCommandBuffer None.

Inductive FsmState : Type := IDLE | RECEIVING | PROCESSING | SENDING.

(** Modelled from the spec: [SpiFsm], absent from the sources: chip-select
    level, current state, byte cursor and frame, next to the two settings it
    is built with. *)
Record SpiFsm : Type := mkSpiFsm {
  init_byte : bytes;
  busy_iter : option (list bool);
  csn_low : bool;
  fsm_state : FsmState;
  cursor : Z;
  frame : bytes
}.

(** Modelled from the spec: [SpiFsm.reset]; back to idle with chip-select
    high, nothing buffered. *)
Definition spi_fsm_reset (f : SpiFsm) : SpiFsm :=
  mkSpiFsm (init_byte f) (busy_iter f) false IDLE 0 [].

Record BaseModel : Type := mkBaseModel {
  r_config : ConfigurationObjectImpl;
  i_config : ConfigurationObjectImpl;
  activate_encryption : bool;
  _config : option ConfigurationObjectImpl;
  session : TropicEncryptedSession;
  pairing_key_slot : Z;
  command_buffer : CommandBuffer;
  spi_fsm : SpiFsm
}.

Definition set__config (c : option ConfigurationObjectImpl) (m : BaseModel) : BaseModel :=
  mkBaseModel (r_config m) (i_config m) (activate_encryption m) c
    (session m) (pairing_key_slot m) (command_buffer m) (spi_fsm m).

Definition set_session (s : TropicEncryptedSession) (m : BaseModel) : BaseModel :=
  mkBaseModel (r_config m) (i_config m) (activate_encryption m) (_config m)
    s (pairing_key_slot m) (command_buffer m) (spi_fsm m).

Definition set_pairing_key_slot (k : Z) (m : BaseModel) : BaseModel :=
  mkBaseModel (r_config m) (i_config m) (activate_encryption m) (_config m)
    (session m) k (command_buffer m) (spi_fsm m).

Definition set_command_buffer (b : CommandBuffer) (m : BaseModel) : BaseModel :=
  mkBaseModel (r_config m) (i_config m) (activate_encryption m) (_config m)
    (session m) (pairing_key_slot m) b (spi_fsm m).

Definition set_spi_fsm (f : SpiFsm) (m : BaseModel) : BaseModel :=
  mkBaseModel (r_config m) (i_config m) (activate_encryption m) (_config m)
    (session m) (pairing_key_slot m) (command_buffer m) f.

Definition set_r_config (r : ConfigurationObjectImpl) (m : BaseModel) : BaseModel :=
  mkBaseModel r (i_config m) (activate_encryption m) (_config m)
    (session m) (pairing_key_slot m) (command_buffer m) (spi_fsm m).

(** [BaseModel.__init__], for the attributes above.  An argument left out
    ([None]) is replaced by the default object of its class. *)
Definition __init__ (default_config : ConfigurationObjectImpl)
    (r_config i_config : option ConfigurationObjectImpl)
    (activate_encryption : bool)
    (init_byte : bytes) (busy_iter : option (list bool)) : BaseModel :=
  mkBaseModel (default default_config r_config) (default default_config i_config)
    activate_encryption None
    (mkSession false None None 0 0) (-1)
    (mkCommandBuffer None)
    (mkSpiFsm init_byte busy_iter false IDLE 0 []).

(** [BaseModel.invalidate_session]. *)
Definition invalidate_session (m : BaseModel) : BaseModel :=
  set_pairing_key_slot (-1) (set_session (session_reset (session m)) m).

(** [BaseModel._process_power_off]. *)
Definition _process_power_off (m : BaseModel) : BaseModel :=
  let m1 := invalidate_session m in
  let m2 := set_command_buffer (command_buffer_reset (command_buffer m1)) m1 in
  let m3 := set_spi_fsm (spi_fsm_reset (spi_fsm m2)) m2 in
  set__config None m3.

Definition power_off (m : BaseModel) : BaseModel := _process_power_off m.

Definition power_on (m : BaseModel) : BaseModel := m.

(** The property [BaseModel.config]: the value read and the model after the
    read. *)
Definition config (m : BaseModel) : ConfigurationObjectImpl * BaseModel :=
  match _config m with
  | None =>
      let c := cfg_and (i_config m) (r_config m) in
      (c, set__config (Some c) m)
  | Some c => (c, m)
  end.

(** [BaseModel.check_access_privileges]; [name] only feeds the log. *)
Definition check_access_privileges (m : BaseModel) (name : list Byte.byte) (value : Z)
  : res unit :=
  if negb (activate_encryption m) then Ret tt
  else if negb ((0 <=? pairing_key_slot m) && (pairing_key_slot m <? S_HI_PUB_NB_SLOTS))
  then Raise RuntimeError
  else if Z.land value (2 ^ pairing_key_slot m) =? 0
  then Raise L3ProcessingErrorUnauthorized
  else Ret tt.

(** *** Encryption of results and decryption of commands *)

(** [b"\x00" * n]. *)
Definition zero_bytes (n : Z) : bytes := replicate (Z.to_nat n) Byte.x00.

(** The slice [data[:stop]], with Python's reading of a negative [stop]. *)
Definition slice_to (data : bytes) (stop : Z) : bytes :=
  let len := Z.of_nat (length data) in
  let stop' := if stop <? 0 then Z.max (len + stop) 0 else Z.min stop len in
  take (Z.to_nat stop') data.

(** The AEAD path of the session object ([tvl/crypto/encrypted_session.py],
    not among the sources), taken as an interface: each call returns or
    raises, and leaves the session in a new state. *)
Record SessionOps : Type := mkSessionOps {
  encrypt_response :
    TropicEncryptedSession -> bytes -> res bytes * TropicEncryptedSession;
  session_decrypt_command :
    TropicEncryptedSession -> bytes -> res (option bytes) * TropicEncryptedSession
}.

Section Encryption.

(** [ENCRYPTION_TAG_LEN] of the absent [constants] module. *)
Variable ENCRYPTION_TAG_LEN : Z.
Variable ops : SessionOps.

(** [BaseModel.encrypt_result]. *)
Definition encrypt_result (m : BaseModel) (result : bytes) : res bytes * BaseModel :=
  if activate_encryption m then
    let '(r, s) := encrypt_response ops (session m) result in
    (r, set_session s m)
  else (Ret (result ++ zero_bytes ENCRYPTION_TAG_LEN), m).

(** [BaseModel.decrypt_command]. *)
Definition decrypt_command (m : BaseModel) (command : bytes)
  : res (option bytes) * BaseModel :=
  if activate_encryption m then
    let '(r, s) := session_decrypt_command ops (session m) command in
    (r, set_session s m)
  else (Ret (Some (slice_to command (- ENCRYPTION_TAG_LEN))), m).

End Encryption.

(** *** The dispatcher *)

Record L2Response : Type := mkL2Response {
  status : L2StatusEnum;
  data_field_bytes : bytes
}.

(** What a handler hands back: one response or a list of them. *)
Inductive Responses : Type :=
| One (r : L2Response)
| Many (rs : list L2Response).

(** The message layer ([tvl/messages/l2_messages.py] and the registry of
    request classes, not among the sources), taken as an interface over the
    type [Req] of parsed requests. *)
Record MessageLayer (Req : Type) : Type := mkMessageLayer {
  (* [L2Request.with_length(len(data)).from_bytes(data)] *)
  from_bytes : bytes -> res Req;
  has_valid_crc : Req -> bool;
  (* [request.id.value] *)
  id_value : Req -> Z;
  (* [L2Request.instantiate_subclass(id, data)] *)
  instantiate_subclass : Z -> bytes -> res Req;
  (* [L2Response.to_bytes] *)
  response_to_bytes : L2Response -> res bytes
}.

Arguments from_bytes {Req} _ _.
Arguments has_valid_crc {Req} _ _.
Arguments id_value {Req} _ _.
Arguments instantiate_subclass {Req} _ _ _.
Arguments response_to_bytes {Req} _ _.

(** A request handler: the single-dispatch method [process_l2_request] with
    the overloads a subclass of the model registers. *)
Definition Handler (Req : Type) : Type :=
  BaseModel -> Req -> res Responses * BaseModel.

(** [BaseModel.process_l2_request] itself, the base of the dispatch. *)
Definition process_l2_request_base {Req : Type} : Handler Req :=
  fun m _ => (Raise NotImplementedError, m).

(** [L2API] of [tvl/api/l2_api.py]: each of its ten overloads raises
    [NotImplementedError], as the base does for any other request. *)
Definition L2API_process_l2_request {Req : Type} : Handler Req :=
  fun m _ => (Raise NotImplementedError, m).

Section Dispatcher.

Variable Req : Type.
Variable msg : MessageLayer Req.
Variable process_l2_request : Handler Req.

(** [BaseModel._process_input]. *)
Definition _process_input (m : BaseModel) (data : bytes) : res Responses * BaseModel :=
  match from_bytes msg data with
  | Raise e => (Raise e, m)
  | Ret request =>
      if negb (has_valid_crc msg request) then
        (Ret (One (mkL2Response CRC_ERR [])), m)
      else
        match instantiate_subclass msg (id_value msg request) data with
        | Raise SubclassNotFoundError => (Ret (One (mkL2Response UNKNOWN_REQ [])), m)
        | Raise NoValidSubclassError => (Ret (One (mkL2Response CRC_ERR [])), m)
        | Raise e => (Raise e, m)
        | Ret request =>
            match process_l2_request m request with
            | (Raise (L2ProcessingError st), m') =>
                (Ret (One (mkL2Response st [])), m')
            | other => other
            end
        end
  end.

(** [[response.to_bytes() for response in responses]]. *)
Fixpoint all_to_bytes (rs : list L2Response) : res (list bytes) :=
  match rs with
  | [] => Ret []
  | r :: rs' =>
      match response_to_bytes msg r with
      | Raise e => Raise e
      | Ret b =>
          match all_to_bytes rs' with
          | Raise e => Raise e
          | Ret bs => Ret (b :: bs)
          end
      end
  end.

(** What [process_input] returns: [bytes] or a list of [bytes]. *)
Inductive RawResponses : Type :=
| OneRaw (b : bytes)
| ManyRaw (bs : list bytes).

(** [BaseModel.process_input]. *)
Definition process_input (m : BaseModel) (data : bytes) : res RawResponses * BaseModel :=
  match _process_input m data with
  | (Raise e, m') => (Raise e, m')
  | (Ret (One r), m') =>
      match response_to_bytes msg r with
      | Raise e => (Raise e, m')
      | Ret b => (Ret (OneRaw b), m')
      end
  | (Ret (Many rs), m') =>
      match all_to_bytes rs with
      | Raise e => (Raise e, m')
      | Ret bs => (Ret (ManyRaw bs), m')
      end
  end.

End Dispatcher.

(** *** Configuration writes *)

(** Modelled from the spec: the register write [write_clear_bit], absent
    from the sources.  An address outside the bank fails with
    [InvalidAddress]; a bit index outside 0..31 fails with
    [InvalidBitIndex]; otherwise bit [bit_index] of the reversible copy of
    [register] is cleared.  The cached effective configuration is
    invalidated in every case. *)
Definition write_clear_bit (m : BaseModel) (register bit_index : Z)
  : res unit * BaseModel :=
  match r_config m !! register with
  | None => (Raise InvalidAddress, set__config None m)
  | Some old =>
      if (0 <=? bit_index) && (bit_index <? 32) then
        (Ret tt,
         set__config None
           (set_r_config
              (<[register := Z.land old (Z.lnot (Z.shiftl 1 bit_index))]> (r_config m)) m))
      else (Raise InvalidBitIndex, set__config None m)
  end.

(** * Definitions used to state the properties *)

Definition slot_active (m : BaseModel) : Prop :=
  0 <= pairing_key_slot m < S_HI_PUB_NB_SLOTS.

(** A freshly built model with encryption active, in which [slot] is then
    recorded as the pairing key of the session. *)
Definition model_with_slot (slot : Z) : BaseModel :=
  set_pairing_key_slot slot (__init__ ∅ None None true [Byte.x00] None).

(** The same message layer with another resolver of request classes. *)
Definition with_resolver {Req : Type} (f : Z -> bytes -> res Req)
    (msg : MessageLayer Req) : MessageLayer Req :=
  mkMessageLayer Req (from_bytes msg) (has_valid_crc msg) (id_value msg) f
    (response_to_bytes msg).

(** A small instance of the interface, to run the dispatcher on concrete
    frames: a frame is [id :: payload ++ [check]], valid when [check] is
    zero; only the identifier 1 is registered, and its shape is a payload
    of two bytes. *)
Definition sample_layer : MessageLayer bytes :=
  mkMessageLayer bytes
    (fun data => Ret data)
    (fun rq => match last rq with Some Byte.x00 => true | _ => false end)
    (fun rq => match rq with b :: _ => Z_of_byte b | [] => 0 end)
    (fun id data =>
       if id =? 1 then
         if Nat.eqb (length data) 4 then Ret data else Raise NoValidSubclassError
       else Raise SubclassNotFoundError)
    (fun r => Ret (data_field_bytes r)).

Definition fresh_model : BaseModel := __init__ ∅ None None true [Byte.x00] None.

(** A handler in the style of the L3 layer: it guards its work with
    [check_access_privileges]. *)
Definition guarded_handler {Req : Type} : Handler Req :=
  fun m _ =>
    match check_access_privileges m [] 1 with
    | Raise e => (Raise e, m)
    | Ret _ => (Ret (One (mkL2Response REQ_OK [])), m)
    end.

Definition is_L2ProcessingError (e : exn) : bool :=
  match e with
  | L2ProcessingError _ => true
  | _ => false
  end.

(** A handler that reports a generic failure. *)
Definition failing_handler {Req : Type} : Handler Req :=
  fun m _ => (Raise (L2ProcessingError GEN_ERR), m).

(** The operations of the model that the sources give and that touch the
    attributes modelled here. *)
Inductive Op : Type :=
| OpConfig
| OpPowerOn
| OpPowerOff
| OpInvalidateSession.

Definition step (m : BaseModel) (o : Op) : BaseModel :=
  match o with
  | OpConfig => snd (config m)
  | OpPowerOn => power_on m
  | OpPowerOff => power_off m
  | OpInvalidateSession => invalidate_session m
  end.

Definition run (ops : list Op) (m : BaseModel) : BaseModel := fold_left step ops m.

(** The cache, when filled, holds the AND of the two banks. *)
Definition cache_coherent (m : BaseModel) : Prop :=
  match _config m with
  | None => True
  | Some c => c = cfg_and (i_config m) (r_config m)
  end.

(** A model holding one register at address 0, whose effective value 0xff
    has been read (and so cached) before the write. *)
Definition one_register_model : BaseModel :=
  snd (config (__init__ ∅ (Some {[0 := 255]}) (Some {[0 := 4095]}) true [Byte.x00] None)).

(** Session operations that fail on every call. *)
Definition broken_session : SessionOps :=
  mkSessionOps (fun s _ => (Raise RuntimeError, s)) (fun s _ => (Raise RuntimeError, s)).

Definition diagnostic_model : BaseModel := __init__ ∅ None None false [Byte.x00] None.

(** What [Params.__post_init__] lets through. *)
Definition Params_ok (p : Params) : Prop :=
  0 <= min_size p /\ 1 <= max_size p /\ min_size p <= max_size p.

(** The number of elements [__len__] counts. *)
Definition element_count (instance : DataField) : Z :=
  match _value instance with
  | SAuto => min_size (params instance)
  | SList l => Z.of_nat (length l)
  end.

(** The list that ends up stored for an accepted list [l]. *)
Definition padded (p : Params) (l : list Z) : list Z :=
  let min_length := if has_variable_size p then min_size p else max_size p in
  if min_length - Z.of_nat (length l) >? 0
  then l ++ replicate (Z.to_nat (min_length - Z.of_nat (length l))) 0
  else l.

(** A field of three unsigned bytes, holding zeroes. *)
Definition three_bytes_field : DataField :=
  mkDataField (mkParams UINT8 3 3) (SList [0; 0; 0]).

(** Decoding a buffer element by element, [nb_bytes] bytes at a time: what
    the inverse of [struct_pack] does.  It is the reference against which
    the treatment of [bytes] input is compared. *)
Fixpoint decode_chunks (endianness : Endianness) (w n : nat) (b : bytes) : list Z :=
  match n with
  | O => []
  | S n' => decode_int endianness (take w b) :: decode_chunks endianness w n' (drop w b)
  end.

Definition decode_elements (endianness : Endianness) (d : Dtype) (b : bytes) : list Z :=
  decode_chunks endianness (nb_bytes d) (length b / nb_bytes d) b.

(** A pair of unsigned 16-bit elements. *)
Definition two_shorts_field : DataField :=
  mkDataField (mkParams UINT16 2 2) (SList [0; 0]).

(** Assign a value, serialize the field, and assign the bytes back. *)
Definition encode_decode (endianness : Endianness) (instance : DataField)
    (x : DataFieldInputData) : res DataField :=
  match __set__ endianness instance x with
  | (Raise e, _) => Raise e
  | (Ret _, assigned) =>
      match to_bytes endianness assigned with
      | Raise e => Raise e
      | Ret encoded =>
          match __set__ endianness assigned (VBytes encoded) with
          | (Raise e, _) => Raise e
          | (Ret _, decoded) => Ret decoded
          end
      end
  end.

(** A single unsigned 32-bit element. *)
Definition one_word_field : DataField :=
  mkDataField (mkParams UINT32 1 1) (SList [0]).

(** * The rest of the field and of the model *)

(** Three built-in exceptions of Python that the code below lets out. *)
Definition IndexError : exn := OtherError 1.
Definition ValueError : exn := OtherError 2.
Definition TypeError : exn := OtherError 3.

(** The two subclasses of [DataField], which differ in [getter_fn]:
    [lambda x: x[0]] and [lambda x: x]. *)
Inductive FieldClass : Type := ScalarDataField | ArrayDataField.

Definition getter_fn (c : FieldClass) (x : list Z) : res DataFieldInputData :=
  match c with
  | ScalarDataField =>
      match x with
      | v :: _ => Ret (VInt v)
      | [] => Raise IndexError
      end
  | ArrayDataField => Ret (VList x)
  end.

(** [ValueDescriptor.__get__]. *)
Definition __get__ (c : FieldClass) (instance : DataField) : res DataFieldInputData :=
  match _value instance with
  | SAuto => Ret AUTO
  | SList value => getter_fn c value
  end.

(** [DataField.__init__]: [params] is set, then [value] goes through the
    descriptor; an exception there leaves no object. *)
Definition DataField__init__ (endianness : Endianness) (value : DataFieldInputData)
    (params : Params) : res DataField :=
  match __set__ endianness (mkDataField params SAuto) value with
  | (Ret _, instance) => Ret instance
  | (Raise e, _) => Raise e
  end.

(** *** Lists as objects

    A Python list is an object: [_format_to_list] hands a list argument back
    as it is, [extend] changes it in place and [setattr] stores a reference
    to it.  Here list objects live in a store and are named by their
    address. *)
Abbreviation store := (gmap positive (list Z)).

(** A field whose [_value] is [AUTO] ([None]) or a reference to a list. *)
Record FieldObj : Type := mkFieldObj {
  obj_params : Params;
  obj_value : option positive
}.

(** [ValueDescriptor.__set__] for an argument that is the list object at
    address [value]; [None] when no object lives there. *)
Definition __set__list (s : store) (instance : FieldObj) (value : positive)
  : option (res unit * store * FieldObj) :=
  match s !! value with
  | None => None
  | Some l =>
      let length := Z.of_nat (length l) in
      if length >? max_size (obj_params instance) then
        Some (Raise ListTooLongError, s, instance)
      else
        let min_length :=
          if has_variable_size (obj_params instance)
          then min_size (obj_params instance)
          else max_size (obj_params instance) in
        let padding_length := min_length - length in
        let s' :=
          if padding_length >? 0
          then <[value := l ++ replicate (Z.to_nat padding_length) 0]> s
          else s in
        Some (Ret tt, s', mkFieldObj (obj_params instance) (Some value))
  end.

(** The list a field holds, read through the store. *)
Definition obj_content (s : store) (instance : FieldObj) : option (list Z) :=
  match obj_value instance with
  | None => None
  | Some a => s !! a
  end.

(** *** [BaseModel.spi_send] *)

Inductive SpiData : Type :=
| SpiList (data : list Z)
| SpiBytes (data : bytes)
| SpiOther.

(** [bytes(data)] for a list of ints: [ValueError] unless every element is
    in [range(256)]. *)
Definition bytes_of_list (data : list Z) : res bytes :=
  if forallb (fun x => (0 <=? x) && (x <? 256)) data
  then Ret (map byte_of_Z data)
  else Raise ValueError.

(** [list(b)] for [bytes]. *)
Definition list_of_bytes (b : bytes) : list Z := map Z_of_byte b.

Section Spi.

(** [SpiFsm.process_spi_data], of the absent [spi_fsm] module, taken as an
    operation on the model: it may call back into [process_input]. *)
Variable process_spi_data : BaseModel -> bytes -> res bytes * BaseModel.

(** [BaseModel._spi_send], the overload for [bytes]. *)
Definition _spi_send_bytes (m : BaseModel) (data : bytes) : res bytes * BaseModel :=
  process_spi_data m data.

(** [BaseModel.spi_send], through the single dispatch of [_spi_send]. *)
Definition spi_send (m : BaseModel) (data : SpiData) : res SpiData * BaseModel :=
  match data with
  | SpiOther => (Raise TypeError, m)
  | SpiBytes b =>
      match _spi_send_bytes m b with
      | (Ret r, m') => (Ret (SpiBytes r), m')
      | (Raise e, m') => (Raise e, m')
      end
  | SpiList l =>
      match bytes_of_list l with
      | Raise e => (Raise e, m)
      | Ret b =>
          match _spi_send_bytes m b with
          | (Ret r, m') => (Ret (SpiList (list_of_bytes r)), m')
          | (Raise e, m') => (Raise e, m')
          end
      end
  end.

End Spi.

(** *** [DataField.hexstr]

    The conversion [f"{x:0{n}x}"] of an int: lowercase hexadecimal digits,
    filled with zeroes up to [n] characters, the sign of a negative number
    counting as one of them. *)
Definition hex_digit (d : Z) : ascii :=
  match d with
  | 0 => "0" | 1 => "1" | 2 => "2" | 3 => "3" | 4 => "4" | 5 => "5" | 6 => "6"
  | 7 => "7" | 8 => "8" | 9 => "9" | 10 => "a" | 11 => "b" | 12 => "c"
  | 13 => "d" | 14 => "e" | _ => "f"
  end%char.

Fixpoint hex_fuel (fuel : nat) (v : Z) : list ascii :=
  match fuel with
  | O => []
  | S fuel' =>
      if v <? 16 then [hex_digit v]
      else hex_fuel fuel' (v / 16) ++ [hex_digit (v mod 16)]
  end.

(** The digits of [v >= 0]; its number of bits is fuel enough. *)
Definition hex (v : Z) : list ascii := hex_fuel (S (Z.to_nat (Z.log2 v))) v.

Definition zfill (width : Z) (s : list ascii) : list ascii :=
  replicate (Z.to_nat (width - Z.of_nat (length s))) "0"%char ++ s.

Definition format_0x (width : Z) (x : Z) : list ascii :=
  if x <? 0 then "-"%char :: zfill (width - 1) (hex (- x))
  else zfill width (hex x).

(** [", ".join(parts)]. *)
Fixpoint join_comma (parts : list (list ascii)) : list ascii :=
  match parts with
  | [] => []
  | [p] => p
  | p :: rest => p ++ ","%char :: " "%char :: join_comma rest
  end.

(** [DataField.hexstr] with the [_hexstr] of the two subclasses.  The
    branch for an [Enum] value does not apply to a list of ints. *)
Definition hexstr (c : FieldClass) (instance : DataField) : res (list ascii) :=
  match _value instance with
  | SAuto => Ret ["A"; "U"; "T"; "O"]%char
  | SList value =>
      let nb_chars := Z.of_nat (nb_bytes (dtype (params instance))) * 2 in
      match c with
      | ScalarDataField =>
          match value with
          | x :: _ => Ret (format_0x nb_chars x)
          | [] => Raise IndexError
          end
      | ArrayDataField =>
          Ret ("["%char :: join_comma (map (format_0x nb_chars) value) ++ ["]"%char])
      end
  end.

(** Reading a string of hexadecimal digits, as [int(s, 16)] does. *)
Definition hex_value (c : ascii) : Z :=
  match c with
  | "0" => 0 | "1" => 1 | "2" => 2 | "3" => 3 | "4" => 4 | "5" => 5 | "6" => 6
  | "7" => 7 | "8" => 8 | "9" => 9 | "a" => 10 | "b" => 11 | "c" => 12
  | "d" => 13 | "e" => 14 | "f" => 15 | _ => 0
  end%char.

Definition parse_hex (s : list ascii) : Z :=
  fold_left (fun acc c => 16 * acc + hex_value c) s 0.

(** *** Definitions used to state the further properties *)

(** The values [struct.pack] takes for a dtype. *)
Definition in_range (d : Dtype) (v : Z) : Prop :=
  0 <= v < 2 ^ (8 * Z.of_nat (nb_bytes d)).

(** The length a stored list is padded to. *)
Definition min_length (p : Params) : Z :=
  if has_variable_size p then min_size p else max_size p.

(** A field that may be empty: between 0 and 2 unsigned bytes. *)
Definition optional_bytes_field : DataField :=
  mkDataField (mkParams UINT8 0 2) (SList [0]).

(** The sample layer with a serialization that fails on a response without
    payload. *)
Definition strict_layer : MessageLayer bytes :=
  mkMessageLayer bytes (from_bytes sample_layer) (has_valid_crc sample_layer)
    (id_value sample_layer) (instantiate_subclass sample_layer)
    (fun r => match data_field_bytes r with
              | [] => Raise DataValueError
              | b => Ret b
              end).

(** A message layer whose parser refuses the empty frame. *)
Definition picky_layer : MessageLayer bytes :=
  mkMessageLayer bytes
    (fun data => match data with [] => Raise ValueError | _ => Ret data end)
    (has_valid_crc sample_layer) (id_value sample_layer)
    (instantiate_subclass sample_layer) (response_to_bytes sample_layer).

(** A transport that answers every request with its bytes reversed. *)
Definition echo_spi : BaseModel -> bytes -> res bytes * BaseModel :=
  fun m data => (Ret (rev data), m).

(** *** What happens to a model between two reads of [config] *)

Definition set_i_config (i : ConfigurationObjectImpl) (m : BaseModel) : BaseModel :=
  mkBaseModel (r_config m) i (activate_encryption m) (_config m)
    (session m) (pairing_key_slot m) (command_buffer m) (spi_fsm m).

(** The operations of the source on the attributes modelled here, and a
    change of one of the two banks, as a handler of a subclass or an
    assignment to the attribute makes it. *)
Inductive Event : Type :=
| EvConfig
| EvPowerOn
| EvPowerOff
| EvInvalidateSession
| EvSetRConfig (r : ConfigurationObjectImpl)
| EvSetIConfig (i : ConfigurationObjectImpl).

Definition apply_event (m : BaseModel) (ev : Event) : BaseModel :=
  match ev with
  | EvConfig => snd (config m)
  | EvPowerOn => power_on m
  | EvPowerOff => power_off m
  | EvInvalidateSession => invalidate_session m
  | EvSetRConfig r => set_r_config r m
  | EvSetIConfig i => set_i_config i m
  end.

Definition play (evs : list Event) (m : BaseModel) : BaseModel :=
  fold_left apply_event evs m.

Definition is_power_off (ev : Event) : bool :=
  match ev with
  | EvPowerOff => true
  | _ => false
  end.

(** The model of [one_register_model] after its reversible bank has been
    replaced by one that holds 0 at address 0. *)
Definition stale_model : BaseModel := set_r_config {[0 := 0]} one_register_model.

(** * Properties *)

(** ** Access privileges *)

Lemma land_pow2_eqb (v k : Z) :
  0 <= k -> (Z.land v (2 ^ k) =? 0) = negb (Z.testbit v k).
Proof.
  intros Hk.
  assert (E : Z.land v (2 ^ k) = if Z.testbit v k then 2 ^ k else 0).
  { apply Z.bits_inj'. intros n Hn.
    rewrite Z.land_spec, Z.pow2_bits_eqb by exact Hk.
    destruct (Z.eqb_spec k n) as [->|Hne].
    - rewrite andb_true_r. destruct (Z.testbit v n); simpl.
      + rewrite Z.pow2_bits_eqb by exact Hn. symmetry. apply Z.eqb_refl.
      + symmetry. apply Z.bits_0.
    - rewrite andb_false_r. destruct (Z.testbit v k).
      + rewrite Z.pow2_bits_eqb by exact Hk. symmetry. apply Z.eqb_neq. exact Hne.
      + symmetry. apply Z.bits_0. }
  rewrite E. destruct (Z.testbit v k); simpl.
  - apply Z.eqb_neq. pose proof (Z.pow_pos_nonneg 2 k). lia.
  - reflexivity.
Qed.

Lemma slot_guard (m : BaseModel) :
  negb ((0 <=? pairing_key_slot m) && (pairing_key_slot m <? S_HI_PUB_NB_SLOTS)) = false
  <-> slot_active m.
Proof.
  unfold slot_active. rewrite negb_false_iff, andb_true_iff, Z.leb_le, Z.ltb_lt.
  tauto.
Qed.

(** C1, as stated, fails: with encryption active and [pairing_key_slot = 4]
    the check raises [RuntimeError] for the register value 16, whose bit 4
    is set; so "succeeds iff the bit of the slot is set" does not hold for a
    slot outside 0..3. *)
Lemma check_access_privileges_slot_out_of_range :
  activate_encryption (model_with_slot 4) = true /\
  Z.testbit 16 (pairing_key_slot (model_with_slot 4)) = true /\
  check_access_privileges (model_with_slot 4) [] 16 = Raise RuntimeError /\
  ~ (check_access_privileges (model_with_slot 4) [] 16 = Ret tt
     <-> Z.testbit 16 (pairing_key_slot (model_with_slot 4)) = true).
Proof.
  repeat split; try reflexivity.
  intros [_ H]. specialize (H eq_refl). discriminate H.
Qed.

(** C1 (amended): with encryption active, the check returns normally iff the
    recorded slot is one of 0..3 and that bit of the register value is set;
    it raises the unauthorized error for an active slot whose bit is clear,
    and [RuntimeError] when no slot of 0..3 is recorded (the sentinel -1
    included).  With encryption off it returns normally whatever the value
    and the slot. *)
Theorem check_access_privileges_spec (m : BaseModel) (name : list Byte.byte) (v : Z) :
  (activate_encryption m = true ->
     (check_access_privileges m name v = Ret tt
        <-> slot_active m /\ Z.testbit v (pairing_key_slot m) = true) /\
     (slot_active m -> Z.testbit v (pairing_key_slot m) = false ->
        check_access_privileges m name v = Raise L3ProcessingErrorUnauthorized) /\
     (~ slot_active m -> check_access_privileges m name v = Raise RuntimeError)) /\
  (activate_encryption m = false -> check_access_privileges m name v = Ret tt).
Proof.
  unfold check_access_privileges. split.
  - intros ->. simpl.
    destruct (negb _) eqn:G.
    + assert (Hn : ~ slot_active m).
      { intros Ha. apply slot_guard in Ha. congruence. }
      repeat split; try tauto; try discriminate.
    + apply slot_guard in G. pose proof G as [Hlo _].
      rewrite (land_pow2_eqb v _ Hlo).
      destruct (Z.testbit v (pairing_key_slot m)); simpl.
      * split; [tauto|]. split; [discriminate|tauto].
      * split; [|tauto]. split; [discriminate|]. intros [_ Hb]; discriminate Hb.
  - intros ->. reflexivity.
Qed.

Lemma check_access_privileges_spec_witness :
  activate_encryption (model_with_slot 2) = true /\
  check_access_privileges (model_with_slot 2) [] 4 = Ret tt /\
  check_access_privileges (model_with_slot 2) [] 11 = Raise L3ProcessingErrorUnauthorized /\
  check_access_privileges (model_with_slot (-1)) [] 15 = Raise RuntimeError.
Proof.
  split; [reflexivity|].
  split.
  { apply (proj1 (check_access_privileges_spec (model_with_slot 2) [] 4) eq_refl).
    split; [unfold slot_active, S_HI_PUB_NB_SLOTS; simpl; lia | reflexivity]. }
  split.
  { apply (proj1 (check_access_privileges_spec (model_with_slot 2) [] 11) eq_refl).
    - unfold slot_active, S_HI_PUB_NB_SLOTS; simpl; lia.
    - reflexivity. }
  apply (proj1 (check_access_privileges_spec (model_with_slot (-1)) [] 15) eq_refl).
  unfold slot_active; simpl; lia.
Defined.

(** ** The dispatcher *)

(** C2: a frame whose checksum is invalid is answered with [CRC_ERR],
    whatever the resolver and the handler are (neither is consulted, and
    the model is left as it was); a frame with a valid checksum and an
    identifier that is not registered is answered with [UNKNOWN_REQ]; one
    whose identifier is registered but whose shape is wrong is answered
    with [CRC_ERR]; and the two statuses differ. *)
Theorem _process_input_status (Req : Type) (msg : MessageLayer Req)
    (process_l2_request : Handler Req) (m : BaseModel) (data : bytes) (rq : Req) :
  from_bytes msg data = Ret rq ->
  (has_valid_crc msg rq = false ->
     forall (resolver : Z -> bytes -> res Req) (handler : Handler Req),
       _process_input Req (with_resolver resolver msg) handler m data
       = (Ret (One (mkL2Response CRC_ERR [])), m)) /\
  (has_valid_crc msg rq = true ->
     instantiate_subclass msg (id_value msg rq) data = Raise SubclassNotFoundError ->
     _process_input Req msg process_l2_request m data
     = (Ret (One (mkL2Response UNKNOWN_REQ [])), m)) /\
  (has_valid_crc msg rq = true ->
     instantiate_subclass msg (id_value msg rq) data = Raise NoValidSubclassError ->
     _process_input Req msg process_l2_request m data
     = (Ret (One (mkL2Response CRC_ERR [])), m)) /\
  status (mkL2Response UNKNOWN_REQ []) <> status (mkL2Response CRC_ERR []).
Proof.
  intros Hparse. repeat split.
  - intros Hcrc resolver handler. unfold _process_input. simpl.
    rewrite Hparse, Hcrc. reflexivity.
  - intros Hcrc Hres. unfold _process_input.
    rewrite Hparse, Hcrc. simpl. rewrite Hres. reflexivity.
  - intros Hcrc Hres. unfold _process_input.
    rewrite Hparse, Hcrc. simpl. rewrite Hres. reflexivity.
  - simpl. discriminate.
Qed.

Lemma _process_input_status_witness :
  _process_input bytes sample_layer L2API_process_l2_request fresh_model
    [Byte.x01; Byte.x00; Byte.x00; Byte.x07]
  = (Ret (One (mkL2Response CRC_ERR [])), fresh_model) /\
  _process_input bytes sample_layer L2API_process_l2_request fresh_model
    [Byte.x09; Byte.x00; Byte.x00; Byte.x00]
  = (Ret (One (mkL2Response UNKNOWN_REQ [])), fresh_model) /\
  _process_input bytes sample_layer L2API_process_l2_request fresh_model
    [Byte.x01; Byte.x00; Byte.x00]
  = (Ret (One (mkL2Response CRC_ERR [])), fresh_model).
Proof.
  split; [|split].
  - exact (proj1 (_process_input_status bytes sample_layer L2API_process_l2_request
             fresh_model [Byte.x01; Byte.x00; Byte.x00; Byte.x07] _ eq_refl)
             eq_refl (instantiate_subclass sample_layer) L2API_process_l2_request).
  - exact (proj1 (proj2 (_process_input_status bytes sample_layer
             L2API_process_l2_request fresh_model
             [Byte.x09; Byte.x00; Byte.x00; Byte.x00] _ eq_refl)) eq_refl eq_refl).
  - exact (proj1 (proj2 (proj2 (_process_input_status bytes sample_layer
             L2API_process_l2_request fresh_model
             [Byte.x01; Byte.x00; Byte.x00] _ eq_refl))) eq_refl eq_refl).
Defined.

(** C9, as stated, fails: the dispatcher catches [L2ProcessingError] only.
    On a well-formed frame the handlers of [L2API] raise
    [NotImplementedError], and a handler guarded by
    [check_access_privileges] raises [RuntimeError] while no pairing key
    slot is active; both leave [process_input] as exceptions. *)
Lemma process_input_lets_errors_escape :
  fst (process_input bytes sample_layer L2API_process_l2_request fresh_model
         [Byte.x01; Byte.x00; Byte.x00; Byte.x00]) = Raise NotImplementedError /\
  fst (process_input bytes sample_layer guarded_handler fresh_model
         [Byte.x01; Byte.x00; Byte.x00; Byte.x00]) = Raise RuntimeError /\
  ~ (forall (Req : Type) (msg : MessageLayer Req) (h : Handler Req)
       (m : BaseModel) (data : bytes),
       exists r, fst (process_input Req msg h m data) = Ret r).
Proof.
  split; [reflexivity|]. split; [reflexivity|].
  intros H.
  destruct (H bytes sample_layer guarded_handler fresh_model
              [Byte.x01; Byte.x00; Byte.x00; Byte.x00]) as [r Hr].
  discriminate Hr.
Qed.

(** C9 (amended): on a frame that parses, has a valid checksum and resolves
    to a request, an [L2ProcessingError] raised by the handler is caught and
    turned into a response that carries the error's status, which
    [process_input] then serializes; an exception of any other class raised
    by the handler is not caught: it leaves [_process_input] and
    [process_input] as it is. *)
Theorem _process_input_handler_errors (Req : Type) (msg : MessageLayer Req)
    (process_l2_request : Handler Req) (m m' : BaseModel) (data : bytes)
    (rq request : Req) (e : exn) :
  from_bytes msg data = Ret rq ->
  has_valid_crc msg rq = true ->
  instantiate_subclass msg (id_value msg rq) data = Ret request ->
  process_l2_request m request = (Raise e, m') ->
  (forall st, e = L2ProcessingError st ->
     _process_input Req msg process_l2_request m data
     = (Ret (One (mkL2Response st [])), m') /\
     process_input Req msg process_l2_request m data
     = (match response_to_bytes msg (mkL2Response st []) with
        | Ret b => Ret (OneRaw b)
        | Raise e' => Raise e'
        end, m')) /\
  (is_L2ProcessingError e = false ->
     _process_input Req msg process_l2_request m data = (Raise e, m') /\
     process_input Req msg process_l2_request m data = (Raise e, m')).
Proof.
  intros Hparse Hcrc Hres Hh. split.
  - intros st ->.
    assert (E : _process_input Req msg process_l2_request m data
                = (Ret (One (mkL2Response st [])), m')).
    { unfold _process_input. rewrite Hparse, Hcrc. simpl. rewrite Hres, Hh.
      reflexivity. }
    split; [exact E|].
    unfold process_input. rewrite E.
    destruct (response_to_bytes msg _); reflexivity.
  - intros Hne.
    assert (E : _process_input Req msg process_l2_request m data = (Raise e, m')).
    { unfold _process_input. rewrite Hparse, Hcrc. simpl. rewrite Hres, Hh.
      destruct e; try reflexivity. discriminate Hne. }
    split; [exact E|].
    unfold process_input. rewrite E. reflexivity.
Qed.

Lemma _process_input_handler_errors_witness :
  _process_input bytes sample_layer failing_handler fresh_model
    [Byte.x01; Byte.x00; Byte.x00; Byte.x00]
  = (Ret (One (mkL2Response GEN_ERR [])), fresh_model) /\
  process_input bytes sample_layer guarded_handler fresh_model
    [Byte.x01; Byte.x00; Byte.x00; Byte.x00]
  = (Raise RuntimeError, fresh_model).
Proof.
  split.
  - exact (proj1 (proj1 (_process_input_handler_errors bytes sample_layer
             failing_handler fresh_model fresh_model
             [Byte.x01; Byte.x00; Byte.x00; Byte.x00] _ _ _
             eq_refl eq_refl eq_refl eq_refl) GEN_ERR eq_refl)).
  - exact (proj2 (proj2 (_process_input_handler_errors bytes sample_layer
             guarded_handler fresh_model fresh_model
             [Byte.x01; Byte.x00; Byte.x00; Byte.x00] _ _ _
             eq_refl eq_refl eq_refl eq_refl) eq_refl)).
Defined.

(** ** Effective configuration *)

Lemma cfg_and_lookup (i r : ConfigurationObjectImpl) (reg : Z) :
  cfg_and i r !! reg =
  match i !! reg, r !! reg with
  | Some a, Some b => Some (Z.land a b)
  | _, _ => None
  end.
Proof.
  unfold cfg_and. rewrite lookup_intersection_with.
  destruct (i !! reg), (r !! reg); reflexivity.
Qed.

Lemma config_banks (m : BaseModel) :
  i_config (snd (config m)) = i_config m /\ r_config (snd (config m)) = r_config m.
Proof. unfold config. destruct (_config m); split; reflexivity. Qed.

Lemma step_banks (m : BaseModel) (o : Op) :
  i_config (step m o) = i_config m /\ r_config (step m o) = r_config m.
Proof. destruct o; simpl; try (split; reflexivity). apply config_banks. Qed.

Lemma step_coherent (m : BaseModel) (o : Op) :
  cache_coherent m -> cache_coherent (step m o).
Proof.
  unfold cache_coherent. intros H. destruct o; simpl; try exact H; try exact I.
  unfold config. destruct (_config m) eqn:E; simpl.
  - rewrite E. exact H.
  - reflexivity.
Qed.

Lemma run_coherent (ops : list Op) (m : BaseModel) :
  cache_coherent m -> cache_coherent (run ops m).
Proof.
  revert m. induction ops as [|o ops IH]; intros m H; simpl.
  - exact H.
  - apply IH, step_coherent, H.
Qed.

Lemma config_of_coherent (m : BaseModel) :
  cache_coherent m -> fst (config m) = cfg_and (i_config m) (r_config m).
Proof.
  unfold cache_coherent, config. destruct (_config m); simpl; intros H.
  - exact H.
  - reflexivity.
Qed.

(** In every state the model reaches from its construction by reads,
    [power_on], [power_off] and [invalidate_session], none of which changes
    a bank, reading [config] returns the AND of [i_config] and [r_config];
    the read fills an empty cache, a filled cache is returned as it is, and
    [power_off] empties it. *)
Lemma config_from_construction (default_config : ConfigurationObjectImpl)
    (r i : option ConfigurationObjectImpl) (enc : bool) (ib : bytes)
    (bi : option (list bool)) (ops : list Op) :
  let m0 := __init__ default_config r i enc ib bi in
  let m := run ops m0 in
  _config m0 = None /\
  fst (config m) = cfg_and (i_config m) (r_config m) /\
  (forall reg : Z,
     fst (config m) !! reg =
     match i_config m !! reg, r_config m !! reg with
     | Some a, Some b => Some (Z.land a b)
     | _, _ => None
     end) /\
  _config (snd (config m)) = Some (fst (config m)) /\
  config (snd (config m)) = (fst (config m), snd (config m)) /\
  _config (power_off m) = None /\
  config (power_off m)
  = (cfg_and (i_config m) (r_config m),
     set__config (Some (cfg_and (i_config m) (r_config m))) (power_off m)).
Proof.
  intros m0 m.
  assert (Hc : cache_coherent m) by (apply run_coherent; exact I).
  pose proof (config_of_coherent m Hc) as Hv.
  split; [reflexivity|]. split; [exact Hv|]. split.
  { intros reg. rewrite Hv. apply cfg_and_lookup. }
  assert (Hs : _config (snd (config m)) = Some (fst (config m))).
  { unfold config. destruct (_config m) eqn:E; simpl; [exact E | reflexivity]. }
  split; [exact Hs|]. split.
  { unfold config at 1. rewrite Hs. reflexivity. }
  split; reflexivity.
Qed.

(** Once filled, the cache is what a read returns, whatever the banks hold
    by then. *)
Lemma config_cached (m : BaseModel) (c : ConfigurationObjectImpl) :
  _config m = Some c -> config m = (c, m).
Proof. unfold config. intros ->. reflexivity. Qed.

Lemma cache_persists (evs : list Event) (m : BaseModel)
    (c : ConfigurationObjectImpl) :
  forallb (fun ev => negb (is_power_off ev)) evs = true ->
  _config m = Some c ->
  _config (play evs m) = Some c.
Proof.
  revert m. induction evs as [|ev evs IH]; intros m Hevs Hc; simpl in *.
  - exact Hc.
  - apply andb_true_iff in Hevs as [Hev Hevs]. apply IH; [exact Hevs|].
    destruct ev; simpl in *; try exact Hc; try discriminate.
    unfold config. rewrite Hc. exact Hc.
Qed.

(** C3, as stated, fails: a read of [config] does not return the AND of the
    two banks in every state.  In [stale_model] the cache was filled while
    register 0 held 0xff in the reversible bank; the bank now holds 0 there,
    the AND of the banks is 0, and the read still returns 0xff. *)
Lemma config_returns_stale_value :
  fst (config stale_model) !! 0 = Some 255 /\
  cfg_and (i_config stale_model) (r_config stale_model) !! 0 = Some 0 /\
  fst (config stale_model) <> cfg_and (i_config stale_model) (r_config stale_model).
Proof.
  split; [reflexivity|]. split; [reflexivity|].
  intros H. apply (f_equal (fun c : ConfigurationObjectImpl => c !! 0)) in H.
  discriminate H.
Qed.

(** C3 (amended): a read of [config] that finds the cache empty returns the
    AND of [i_config] and [r_config] (register by register, the AND of the
    two values) and stores it; a read that finds it filled returns what is
    stored and changes nothing.  The cache is empty after construction and
    after [power_off], which leaves the banks as they are; so the first
    read after either returns the AND of the banks as they are then.  The
    value a read returned is returned by every read that follows until the
    next [power_off], whatever happens to the banks in between; it is the
    AND of the banks as they are whenever no bank changed since the cache
    was filled. *)
Theorem config_cache_spec (m : BaseModel) :
  (_config m = None ->
     config m = (cfg_and (i_config m) (r_config m),
                 set__config (Some (cfg_and (i_config m) (r_config m))) m) /\
     forall reg : Z,
       fst (config m) !! reg =
       match i_config m !! reg, r_config m !! reg with
       | Some a, Some b => Some (Z.land a b)
       | _, _ => None
       end) /\
  (forall c, _config m = Some c -> config m = (c, m)) /\
  _config (snd (config m)) = Some (fst (config m)) /\
  (forall evs : list Event,
     forallb (fun ev => negb (is_power_off ev)) evs = true ->
     fst (config (play evs (snd (config m)))) = fst (config m)) /\
  (_config (power_off m) = None /\
   i_config (power_off m) = i_config m /\
   r_config (power_off m) = r_config m /\
   fst (config (power_off m)) = cfg_and (i_config m) (r_config m)) /\
  (forall (default_config : ConfigurationObjectImpl)
          (r i : option ConfigurationObjectImpl) (enc : bool) (ib : bytes)
          (bi : option (list bool)),
     _config (__init__ default_config r i enc ib bi) = None) /\
  (cache_coherent m ->
   forall ops : list Op,
     fst (config (run ops m))
     = cfg_and (i_config (run ops m)) (r_config (run ops m))).
Proof.
  assert (Hfill : _config (snd (config m)) = Some (fst (config m))).
  { unfold config. destruct (_config m) eqn:E; simpl; [exact E | reflexivity]. }
  split; [|split; [|split; [|split; [|split; [|split]]]]].
  - intros Hn. unfold config. rewrite Hn. split; [reflexivity|].
    intros reg. simpl. apply cfg_and_lookup.
  - intros c Hc. unfold config. rewrite Hc. reflexivity.
  - exact Hfill.
  - intros evs Hevs.
    pose proof (cache_persists evs _ _ Hevs Hfill) as Hp.
    unfold config at 1. rewrite Hp. reflexivity.
  - repeat split.
  - intros. reflexivity.
  - intros Hc ops. apply config_of_coherent, run_coherent, Hc.
Qed.

Lemma config_cache_spec_witness :
  fst (config (play [EvSetRConfig {[0 := 0]}; EvInvalidateSession; EvConfig]
                 (snd (config (__init__ ∅ (Some {[0 := 255]}) (Some {[0 := 4095]})
                                 true [Byte.x00] None))))) !! 0
  = Some 255 /\
  fst (config (power_off stale_model)) !! 0 = Some 0.
Proof.
  split.
  - rewrite (proj1 (proj2 (proj2 (proj2
               (config_cache_spec (__init__ ∅ (Some {[0 := 255]}) (Some {[0 := 4095]})
                                     true [Byte.x00] None)))))
               [EvSetRConfig {[0 := 0]}; EvInvalidateSession; EvConfig] eq_refl).
    reflexivity.
  - rewrite (proj2 (proj2 (proj2 (proj1 (proj2 (proj2 (proj2 (proj2
               (config_cache_spec stale_model))))))))).
    reflexivity.
Defined.

(** ** Configuration writes *)

(** C4: a register write empties the cache of the effective configuration;
    the read that follows returns, for the written register, the AND of the
    irreversible value and the reversible value as the write left it, which
    after a successful write is the former effective value with the bit
    cleared. *)
Theorem write_clear_bit_invalidates (m : BaseModel) (register bit_index : Z) :
  let m' := snd (write_clear_bit m register bit_index) in
  _config m' = None /\
  fst (config m') = cfg_and (i_config m') (r_config m') /\
  fst (config m') !! register =
    match i_config m' !! register, r_config m' !! register with
    | Some a, Some b => Some (Z.land a b)
    | _, _ => None
    end /\
  i_config m' = i_config m /\
  (forall iv rv : Z,
     i_config m !! register = Some iv ->
     r_config m !! register = Some rv ->
     0 <= bit_index < 32 ->
     fst (write_clear_bit m register bit_index) = Ret tt /\
     fst (config m') !! register
     = Some (Z.land (Z.land iv rv) (Z.lnot (Z.shiftl 1 bit_index)))).
Proof.
  intros m'.
  assert (Hn : _config m' = None).
  { unfold m', write_clear_bit. destruct (r_config m !! register); [|reflexivity].
    destruct (_ && _); reflexivity. }
  assert (Hv : fst (config m') = cfg_and (i_config m') (r_config m')).
  { unfold config. rewrite Hn. reflexivity. }
  assert (Hi : i_config m' = i_config m).
  { unfold m', write_clear_bit. destruct (r_config m !! register); [|reflexivity].
    destruct (_ && _); reflexivity. }
  split; [exact Hn|]. split; [exact Hv|]. split.
  { rewrite Hv. apply cfg_and_lookup. }
  split; [exact Hi|].
  intros iv rv Hiv Hrv Hb.
  assert (Hg : (0 <=? bit_index) && (bit_index <? 32) = true).
  { apply andb_true_iff. split; [apply Z.leb_le | apply Z.ltb_lt]; lia. }
  assert (Hr : r_config m' =
               <[register := Z.land rv (Z.lnot (Z.shiftl 1 bit_index))]> (r_config m)).
  { unfold m', write_clear_bit. rewrite Hrv, Hg. reflexivity. }
  split.
  { unfold write_clear_bit. rewrite Hrv, Hg. reflexivity. }
  rewrite Hv, cfg_and_lookup, Hi, Hiv, Hr, lookup_insert_eq.
  f_equal. apply Z.land_assoc.
Qed.

Lemma write_clear_bit_invalidates_witness :
  _config one_register_model = Some {[0 := 255]} /\
  fst (write_clear_bit one_register_model 0 3) = Ret tt /\
  fst (config (snd (write_clear_bit one_register_model 0 3))) !! 0 = Some 247.
Proof.
  split; [reflexivity|].
  exact (proj2 (proj2 (proj2 (proj2
           (write_clear_bit_invalidates one_register_model 0 3)))) 4095 255
           eq_refl eq_refl ltac:(lia)).
Defined.

(** ** Session invalidation and power-off *)

(** C8: after [invalidate_session] the recorded pairing key slot is -1 and
    the session is the reset one: unestablished, without derived keys, its
    counters at zero; whatever the model held before.  [power_off] does the
    same and moreover resets the command buffer and the transport state
    machine (and empties the cache of the effective configuration). *)
Theorem invalidate_session_spec (m : BaseModel) :
  (pairing_key_slot (invalidate_session m) = -1 /\
   session (invalidate_session m) = session_reset (session m) /\
   established (session (invalidate_session m)) = false /\
   key_command (session (invalidate_session m)) = None /\
   key_result (session (invalidate_session m)) = None /\
   nonce_command (session (invalidate_session m)) = 0 /\
   nonce_result (session (invalidate_session m)) = 0) /\
  (pairing_key_slot (power_off m) = -1 /\
   session (power_off m) = session (invalidate_session m) /\
   established (session (power_off m)) = false /\
   key_command (session (power_off m)) = None /\
   key_result (session (power_off m)) = None /\
   command_buffer (power_off m) = command_buffer_reset (command_buffer m) /\
   latest_response (command_buffer (power_off m)) = None /\
   spi_fsm (power_off m) = spi_fsm_reset (spi_fsm m) /\
   fsm_state (spi_fsm (power_off m)) = IDLE /\
   csn_low (spi_fsm (power_off m)) = false /\
   _config (power_off m) = None).
Proof. repeat split. Qed.

(** ** Encryption switched off *)

Lemma slice_to_neg (data : bytes) (n : Z) :
  0 < n -> slice_to data (- n) = take (length data - Z.to_nat n)%nat data.
Proof.
  intros Hn. unfold slice_to.
  assert (E : (- n <? 0) = true) by (apply Z.ltb_lt; lia).
  rewrite E. f_equal. lia.
Qed.

(** C7: with [activate_encryption] off, [encrypt_result] appends
    [ENCRYPTION_TAG_LEN] zero bytes to its argument and [decrypt_command]
    cuts that many bytes off the end of a command (one that has them), so
    that decrypting an encrypted result gives the result back.  The session
    is left as it is and its operations have no part in the outcome: it is
    the same for every implementation [ops'] of them. *)
Theorem encryption_disabled (ENCRYPTION_TAG_LEN : Z) (ops : SessionOps)
    (m : BaseModel) (x : bytes) :
  0 < ENCRYPTION_TAG_LEN ->
  activate_encryption m = false ->
  encrypt_result ENCRYPTION_TAG_LEN ops m x
  = (Ret (x ++ replicate (Z.to_nat ENCRYPTION_TAG_LEN) Byte.x00), m) /\
  (forall command : bytes,
     ENCRYPTION_TAG_LEN <= Z.of_nat (length command) ->
     exists body tag : bytes,
       decrypt_command ENCRYPTION_TAG_LEN ops m command = (Ret (Some body), m) /\
       command = body ++ tag /\
       Z.of_nat (length tag) = ENCRYPTION_TAG_LEN) /\
  decrypt_command ENCRYPTION_TAG_LEN ops m
    (x ++ replicate (Z.to_nat ENCRYPTION_TAG_LEN) Byte.x00)
  = (Ret (Some x), m) /\
  (forall (ops' : SessionOps) (command : bytes),
     encrypt_result ENCRYPTION_TAG_LEN ops' m x
     = encrypt_result ENCRYPTION_TAG_LEN ops m x /\
     decrypt_command ENCRYPTION_TAG_LEN ops' m command
     = decrypt_command ENCRYPTION_TAG_LEN ops m command).
Proof.
  intros Hpos Hoff. unfold encrypt_result, decrypt_command. rewrite Hoff.
  split; [reflexivity|]. split; [|split].
  - intros command Hlen.
    exists (take (length command - Z.to_nat ENCRYPTION_TAG_LEN)%nat command),
           (drop (length command - Z.to_nat ENCRYPTION_TAG_LEN)%nat command).
    split; [|split].
    + rewrite slice_to_neg by exact Hpos. reflexivity.
    + symmetry. apply take_drop.
    + rewrite length_drop. lia.
  - rewrite slice_to_neg by exact Hpos.
    rewrite length_app, length_replicate.
    replace (length x + Z.to_nat ENCRYPTION_TAG_LEN - Z.to_nat ENCRYPTION_TAG_LEN)%nat
      with (length x) by lia.
    rewrite take_app_length. reflexivity.
  - intros ops' command. split; reflexivity.
Qed.

Lemma encryption_disabled_witness :
  encrypt_result 2 broken_session diagnostic_model [Byte.x41; Byte.x42]
  = (Ret [Byte.x41; Byte.x42; Byte.x00; Byte.x00], diagnostic_model) /\
  decrypt_command 2 broken_session diagnostic_model
    [Byte.x41; Byte.x42; Byte.x00; Byte.x00]
  = (Ret (Some [Byte.x41; Byte.x42]), diagnostic_model).
Proof.
  pose proof (encryption_disabled 2 broken_session diagnostic_model
                [Byte.x41; Byte.x42] eq_refl eq_refl) as [He [_ [Hd _]]].
  split; [exact He | exact Hd].
Defined.

(** With a tag length of zero the slice [command[:-0]] is empty: the
    positivity of the constant is needed for the round trip. *)
Example decrypt_command_tag_zero :
  decrypt_command 0 broken_session diagnostic_model [Byte.x41; Byte.x42]
  = (Ret (Some []), diagnostic_model).
Proof. reflexivity. Qed.

(** ** Wire codec of a field *)

Lemma Z_of_byte_range (b : Byte.byte) : 0 <= Z_of_byte b < 256.
Proof.
  unfold Z_of_byte. pose proof (Byte.to_N_bounded b). lia.
Qed.

Lemma byte_of_Z_of_byte (b : Byte.byte) : byte_of_Z (Z_of_byte b) = b.
Proof.
  unfold byte_of_Z, Z_of_byte. rewrite N2Z.id, Byte.of_to_N. reflexivity.
Qed.

Lemma Z_of_byte_of_Z (z : Z) : 0 <= z < 256 -> Z_of_byte (byte_of_Z z) = z.
Proof.
  intros Hz. unfold byte_of_Z, Z_of_byte.
  destruct (Byte.of_N (Z.to_N z)) as [b|] eqn:E.
  - apply Byte.to_of_N in E. rewrite E. lia.
  - apply Byte.of_N_None_iff in E. lia.
Qed.

Lemma le_bytes_length (w : nat) (v : Z) : length (Struct.le_bytes w v) = w.
Proof.
  revert v. induction w as [|w IH]; intros v; simpl; [reflexivity|].
  rewrite IH. reflexivity.
Qed.

Lemma le_int_le_bytes (w : nat) (v : Z) :
  0 <= v < 256 ^ Z.of_nat w -> Struct.le_int (Struct.le_bytes w v) = v.
Proof.
  revert v. induction w as [|w IH]; intros v Hv.
  - simpl in *. lia.
  - cbn [Struct.le_bytes Struct.le_int].
    rewrite Z_of_byte_of_Z by (apply Z.mod_pos_bound; lia).
    rewrite IH.
    + pose proof (Z.div_mod v 256). lia.
    + rewrite Nat2Z.inj_succ, Z.pow_succ_r in Hv by lia.
      split.
      * apply Z.div_pos; lia.
      * apply Z.div_lt_upper_bound; lia.
Qed.

Lemma fits_range (d : Dtype) (v : Z) :
  fits d v = true <-> 0 <= v < 256 ^ Z.of_nat (nb_bytes d).
Proof.
  unfold fits. rewrite andb_true_iff, Z.leb_le, Z.ltb_lt.
  replace (2 ^ (8 * Z.of_nat (nb_bytes d))) with (256 ^ Z.of_nat (nb_bytes d)).
  - tauto.
  - change 256 with (2 ^ 8). rewrite <- Z.pow_mul_r by lia. reflexivity.
Qed.

Section CodecFacts.

Variable endianness : Endianness.

Lemma encode_int_length (d : Dtype) (v : Z) :
  length (encode_int endianness d v) = nb_bytes d.
Proof.
  unfold encode_int. destruct endianness.
  - apply le_bytes_length.
  - rewrite length_rev. apply le_bytes_length.
Qed.

Lemma decode_encode_int (d : Dtype) (v : Z) :
  fits d v = true -> decode_int endianness (encode_int endianness d v) = v.
Proof.
  intros Hf. apply fits_range in Hf.
  unfold decode_int, encode_int. destruct endianness.
  - apply le_int_le_bytes, Hf.
  - rewrite rev_involutive. apply le_int_le_bytes, Hf.
Qed.

Lemma struct_pack_length (d : Dtype) (l : list Z) (bs : bytes) :
  struct_pack endianness d l = Some bs ->
  length bs = (length l * nb_bytes d)%nat.
Proof.
  revert bs. induction l as [|v l IH]; intros bs H; simpl in H.
  - injection H as <-. reflexivity.
  - destruct (fits d v); [|discriminate].
    destruct (struct_pack endianness d l) as [bs'|]; [|discriminate].
    injection H as <-. rewrite length_app, encode_int_length, (IH bs' eq_refl).
    simpl. reflexivity.
Qed.

Lemma struct_pack_fits (d : Dtype) (l : list Z) :
  forallb (fits d) l = true -> exists bs, struct_pack endianness d l = Some bs.
Proof.
  induction l as [|v l IH]; simpl; intros H.
  - eexists; reflexivity.
  - apply andb_true_iff in H as [Hv Hl]. rewrite Hv.
    destruct (IH Hl) as [bs ->]. eexists; reflexivity.
Qed.

Lemma struct_pack_u8 (l : list Z) (bs : bytes) :
  struct_pack endianness UINT8 l = Some bs -> struct_unpack_u8 bs = l.
Proof.
  revert bs. induction l as [|v l IH]; intros bs H; simpl in H.
  - injection H as <-. reflexivity.
  - destruct (fits UINT8 v) eqn:Hv; [|discriminate].
    destruct (struct_pack endianness UINT8 l) as [bs'|]; [|discriminate].
    injection H as <-.
    apply fits_range in Hv. simpl in Hv.
    assert (E : encode_int endianness UINT8 v = [byte_of_Z v]).
    { unfold encode_int. destruct endianness; simpl; rewrite Z.mod_small by lia;
        reflexivity. }
    rewrite E. simpl. unfold struct_unpack_u8 in *. simpl.
    rewrite Z_of_byte_of_Z by lia. rewrite (IH bs' eq_refl). reflexivity.
Qed.

End CodecFacts.

Lemma Params_init_ok (d : Dtype) (size : option Z) (mn mx : Z) (p : Params) :
  Params_init d size mn mx = Some p -> Params_ok p /\ dtype p = d.
Proof.
  unfold Params_init, Params_ok. intros H.
  destruct (_ <? 0) eqn:E1; [discriminate|].
  destruct (_ <? 1) eqn:E2; [discriminate|].
  destruct (_ <? _) eqn:E3 in H; [discriminate|].
  injection H as <-. simpl.
  apply Z.ltb_ge in E1, E2, E3. repeat split; assumption.
Qed.

Lemma __len___element_count (instance : DataField) :
  __len__ instance
  = element_count instance * Z.of_nat (nb_bytes (dtype (params instance))).
Proof. unfold __len__, element_count. destruct (_value instance); reflexivity. Qed.

Section FieldFacts.

Variable endianness : Endianness.

Lemma __set___unfold (instance : DataField) (value : DataFieldInputData) :
  value <> AUTO ->
  __set__ endianness instance value =
  match _format_to_list endianness value instance with
  | Raise e => (Raise e, instance)
  | Ret l =>
      if Z.of_nat (length l) >? max_size (params instance)
      then (Raise ListTooLongError, instance)
      else (Ret tt, mkDataField (params instance) (SList (padded (params instance) l)))
  end.
Proof.
  intros Hv. destruct value; try reflexivity. contradiction.
Qed.

Lemma padded_length (p : Params) (l : list Z) :
  Params_ok p ->
  Z.of_nat (length l) <= max_size p ->
  (if has_variable_size p then min_size p else max_size p)
    <= Z.of_nat (length (padded p l)) <= max_size p.
Proof.
  intros (H0 & H1 & H2) Hl. unfold padded.
  destruct (has_variable_size p);
    (destruct (_ >? 0) eqn:E;
     [ apply Z.gtb_lt in E; rewrite length_app, length_replicate; lia
     | rewrite Z.gtb_ltb in E; apply Z.ltb_ge in E; lia ]).
Qed.

Lemma padded_fixed (p : Params) (l : list Z) :
  min_size p = max_size p ->
  Z.of_nat (length l) <= max_size p ->
  padded p l = l ++ replicate (Z.to_nat (max_size p - Z.of_nat (length l))) 0.
Proof.
  intros Hfix Hl. unfold padded, has_variable_size.
  rewrite Hfix, Z.eqb_refl. simpl.
  destruct (_ >? 0) eqn:E; [reflexivity|].
  rewrite Z.gtb_ltb in E. apply Z.ltb_ge in E.
  replace (Z.to_nat (max_size p - Z.of_nat (length l))) with 0%nat by lia.
  simpl. symmetry. apply app_nil_r.
Qed.

(** C6: a value of more than [max_size] elements is refused with
    [ListTooLongError] and the field keeps what it held; in a field of fixed
    size a shorter value is stored followed by zeroes up to that size; and
    after an assignment that succeeds the number of stored elements lies
    between [min_size] and [max_size]. *)
Theorem __set___size_contract (instance : DataField) (value : DataFieldInputData) :
  Params_ok (params instance) ->
  (forall l : list Z,
     value <> AUTO ->
     _format_to_list endianness value instance = Ret l ->
     max_size (params instance) < Z.of_nat (length l) ->
     __set__ endianness instance value = (Raise ListTooLongError, instance)) /\
  (forall l : list Z,
     value <> AUTO ->
     _format_to_list endianness value instance = Ret l ->
     min_size (params instance) = max_size (params instance) ->
     Z.of_nat (length l) <= max_size (params instance) ->
     let stored :=
       l ++ replicate (Z.to_nat (max_size (params instance) - Z.of_nat (length l))) 0 in
     __set__ endianness instance value
     = (Ret tt, mkDataField (params instance) (SList stored)) /\
     Z.of_nat (length stored) = max_size (params instance)) /\
  (forall instance' : DataField,
     __set__ endianness instance value = (Ret tt, instance') ->
     params instance' = params instance /\
     min_size (params instance) <= element_count instance' <= max_size (params instance) /\
     __len__ instance'
     = element_count instance' * Z.of_nat (nb_bytes (dtype (params instance)))).
Proof.
  intros Hok. split; [|split].
  - intros l Hv Hf Hlen. rewrite __set___unfold, Hf by exact Hv.
    assert (E : (Z.of_nat (length l) >? max_size (params instance)) = true)
      by (apply Z.gtb_lt; lia).
    rewrite E. reflexivity.
  - intros l Hv Hf Hfix Hlen stored. split.
    + rewrite __set___unfold, Hf by exact Hv.
      assert (E : (Z.of_nat (length l) >? max_size (params instance)) = false)
        by (rewrite Z.gtb_ltb; apply Z.ltb_ge; lia).
      rewrite E, (padded_fixed _ _ Hfix Hlen). reflexivity.
    + unfold stored. rewrite length_app, length_replicate. lia.
  - intros instance' Hset.
    assert (Hgoal : params instance' = params instance /\
                    min_size (params instance) <= element_count instance'
                      <= max_size (params instance)).
    { assert (Hd : value = AUTO \/ value <> AUTO)
        by (destruct value; [left; reflexivity | right; discriminate ..]).
      destruct Hd as [->|Hv].
      - simpl in Hset. injection Hset as <-. unfold element_count; simpl.
        destruct Hok as (H0 & H1 & H2). split; [reflexivity|lia].
      - rewrite __set___unfold in Hset by exact Hv.
        destruct (_format_to_list endianness value instance) as [l|e];
          [|discriminate].
        destruct (_ >? _) eqn:E in Hset; [discriminate|].
        injection Hset as <-. unfold element_count; simpl.
        rewrite Z.gtb_ltb in E. apply Z.ltb_ge in E.
        pose proof (padded_length (params instance) l Hok E) as Hp.
        destruct Hok as (H0 & H1 & H2).
        split; [reflexivity|].
        destruct (has_variable_size (params instance)); lia. }
    destruct Hgoal as [Hp Hc]. split; [exact Hp|]. split; [exact Hc|].
    rewrite __len___element_count, Hp. reflexivity.
Qed.

End FieldFacts.

Lemma __set___size_contract_witness :
  __set__ little three_bytes_field (VList [1; 2; 3; 4])
  = (Raise ListTooLongError, three_bytes_field) /\
  __set__ little three_bytes_field (VList [7])
  = (Ret tt, mkDataField (mkParams UINT8 3 3) (SList [7; 0; 0])) /\
  3 <= element_count (snd (__set__ little three_bytes_field (VList [7]))) <= 3.
Proof.
  assert (Hok : Params_ok (params three_bytes_field))
    by (unfold Params_ok; simpl; lia).
  split; [|split].
  - apply (proj1 (__set___size_contract little three_bytes_field
                    (VList [1; 2; 3; 4]) Hok) [1; 2; 3; 4]);
      [discriminate | reflexivity | simpl; lia].
  - apply (proj1 (proj2 (__set___size_contract little three_bytes_field
                    (VList [7]) Hok)) [7]);
      [discriminate | reflexivity | reflexivity | simpl; lia].
  - apply (proj2 (proj2 (__set___size_contract little three_bytes_field
                    (VList [7]) Hok)) _ eq_refl).
Defined.

Lemma decode_chunks_length (endianness : Endianness) (w n : nat) (b : bytes) :
  length (decode_chunks endianness w n b) = n.
Proof.
  revert b. induction n as [|n IH]; intros b; simpl; [reflexivity|].
  rewrite IH. reflexivity.
Qed.

Lemma nb_bytes_pos (d : Dtype) : (0 < nb_bytes d)%nat.
Proof. destruct d; simpl; lia. Qed.

Lemma decode_chunks_struct_pack (endianness : Endianness) (d : Dtype)
    (l : list Z) (bs : bytes) :
  struct_pack endianness d l = Some bs ->
  decode_chunks endianness (nb_bytes d) (length l) bs = l.
Proof.
  revert bs. induction l as [|v l IH]; intros bs H; simpl in H.
  - reflexivity.
  - destruct (fits d v) eqn:Hv; [|discriminate].
    destruct (struct_pack endianness d l) as [bs'|]; [|discriminate].
    injection H as <-. simpl.
    rewrite take_app_length' by (symmetry; apply encode_int_length).
    rewrite drop_app_length' by (symmetry; apply encode_int_length).
    rewrite decode_encode_int by exact Hv.
    rewrite (IH bs' eq_refl). reflexivity.
Qed.

(** [decode_elements] undoes [struct_pack]. *)
Lemma decode_elements_struct_pack (endianness : Endianness) (d : Dtype)
    (l : list Z) (bs : bytes) :
  struct_pack endianness d l = Some bs -> decode_elements endianness d bs = l.
Proof.
  intros H. unfold decode_elements.
  rewrite (struct_pack_length _ _ _ _ H).
  rewrite Nat.div_mul by (pose proof (nb_bytes_pos d); lia).
  apply decode_chunks_struct_pack, H.
Qed.

Lemma _format_to_list_one (endianness : Endianness) (instance : DataField)
    (b : bytes) :
  length b = nb_bytes (dtype (params instance)) ->
  _format_to_list endianness (VBytes b) instance = Ret [decode_int endianness b].
Proof.
  intros H. unfold _format_to_list, struct_unpack_one.
  rewrite H, Nat.eqb_refl. reflexivity.
Qed.

Lemma _format_to_list_u8 (endianness : Endianness) (instance : DataField)
    (b : bytes) :
  length b <> nb_bytes (dtype (params instance)) ->
  _format_to_list endianness (VBytes b) instance = Ret (map Z_of_byte b).
Proof.
  intros H. unfold _format_to_list, struct_unpack_one.
  apply Nat.eqb_neq in H. rewrite H. reflexivity.
Qed.

(** C10: a [bytes] value is decoded as one element of the field's dtype
    when its length is the width of that dtype, and only then; a buffer of
    any other length [n] becomes [n] elements, one per byte, each below 256,
    whatever the dtype.  So a buffer holding two or more elements of a dtype
    wider than one byte is not decoded element by element: it yields as
    many elements as it has bytes, not as it has elements. *)
Theorem _format_to_list_bytes (endianness : Endianness) (instance : DataField)
    (b : bytes) :
  let d := dtype (params instance) in
  (length b = nb_bytes d ->
     _format_to_list endianness (VBytes b) instance
     = Ret [decode_int endianness b]) /\
  (length b <> nb_bytes d ->
     _format_to_list endianness (VBytes b) instance = Ret (map Z_of_byte b)) /\
  (forall l : list Z,
     _format_to_list endianness (VBytes b) instance = Ret l ->
     length l = 1%nat -> length b = nb_bytes d \/ length b = 1%nat) /\
  (forall k : nat,
     (1 < nb_bytes d)%nat -> (2 <= k)%nat -> length b = (k * nb_bytes d)%nat ->
     exists l : list Z,
       _format_to_list endianness (VBytes b) instance = Ret l /\
       length l = (k * nb_bytes d)%nat /\
       Forall (fun x => 0 <= x < 256) l /\
       length (decode_elements endianness d b) = k /\
       l <> decode_elements endianness d b).
Proof.
  intros d.
  pose proof (_format_to_list_one endianness instance b) as Heq.
  pose proof (_format_to_list_u8 endianness instance b) as Hne.
  fold d in Heq, Hne.
  split; [exact Heq|]. split; [exact Hne|]. split.
  - intros l Hl Hlen.
    destruct (Nat.eq_dec (length b) (nb_bytes d)) as [E|E]; [left; exact E|].
    right. rewrite (Hne E) in Hl. injection Hl as <-.
    rewrite length_map in Hlen. exact Hlen.
  - intros k Hw Hk Hb.
    assert (E : length b <> nb_bytes d) by nia.
    exists (map Z_of_byte b). split; [exact (Hne E)|].
    assert (Hd : length (decode_elements endianness d b) = k).
    { unfold decode_elements. rewrite decode_chunks_length, Hb.
      apply Nat.div_mul. lia. }
    split; [rewrite length_map; exact Hb|]. split; [|split].
    + apply List.Forall_forall. intros x Hx. apply in_map_iff in Hx as (y & <- & _).
      apply Z_of_byte_range.
    + exact Hd.
    + intros Habs. apply (f_equal length) in Habs.
      rewrite length_map, Hd, Hb in Habs. nia.
Qed.

Lemma _format_to_list_bytes_witness :
  _format_to_list little (VBytes [Byte.x01; Byte.x02]) two_shorts_field = Ret [513] /\
  _format_to_list little (VBytes [Byte.x01; Byte.x00; Byte.x02; Byte.x00]) two_shorts_field
  = Ret [1; 0; 2; 0] /\
  decode_elements little UINT16 [Byte.x01; Byte.x00; Byte.x02; Byte.x00] = [1; 2].
Proof.
  split; [|split].
  - exact (proj1 (_format_to_list_bytes little two_shorts_field
                    [Byte.x01; Byte.x02]) eq_refl).
  - apply (proj1 (proj2 (_format_to_list_bytes little two_shorts_field
                    [Byte.x01; Byte.x00; Byte.x02; Byte.x00]))).
    simpl. lia.
  - reflexivity.
Defined.

(** C5, as stated, fails: a field of two 16-bit elements does not take its
    own serialization back.  The four bytes of [[1; 2]] are read as four
    byte-sized elements, more than the two the field admits, and the
    assignment raises [ListTooLongError]. *)
Lemma encode_decode_two_shorts :
  to_bytes little (snd (__set__ little two_shorts_field (VList [1; 2])))
  = Ret [Byte.x01; Byte.x00; Byte.x02; Byte.x00] /\
  encode_decode little two_shorts_field (VList [1; 2]) = Raise ListTooLongError /\
  encode_decode little two_shorts_field (VList [1; 2])
  <> Ret (mkDataField (params two_shorts_field) (SList [1; 2])).
Proof. split; [reflexivity|]. split; [reflexivity|discriminate]. Qed.

Lemma padded_full (p : Params) (l : list Z) :
  min_size p = max_size p -> Z.of_nat (length l) = max_size p -> padded p l = l.
Proof.
  intros Hfix Hl. rewrite padded_fixed by lia.
  replace (Z.to_nat (max_size p - Z.of_nat (length l))) with 0%nat by lia.
  apply app_nil_r.
Qed.

Lemma __set___full_list (endianness : Endianness) (p : Params) (s : StoredValue)
    (value : DataFieldInputData) (l : list Z) :
  value <> AUTO ->
  _format_to_list endianness value (mkDataField p s) = Ret l ->
  min_size p = max_size p ->
  Z.of_nat (length l) = max_size p ->
  __set__ endianness (mkDataField p s) value = (Ret tt, mkDataField p (SList l)).
Proof.
  intros Hv Hf Hfix Hl. rewrite __set___unfold, Hf by exact Hv. simpl.
  assert (E : (Z.of_nat (length l) >? max_size p) = false)
    by (rewrite Z.gtb_ltb; apply Z.ltb_ge; lia).
  rewrite E, padded_full by assumption. reflexivity.
Qed.

(** C5 (amended): in a field of fixed size whose elements are one byte wide,
    or which holds a single element, a value [x] of that many in-range
    elements comes back from its serialization: assigning [x], calling
    [to_bytes] and assigning the bytes leaves [x] stored.  In a field of
    fixed size with two or more elements wider than one byte the last
    assignment raises [ListTooLongError] instead. *)
Theorem encode_decode_fixed_size (endianness : Endianness) (instance : DataField)
    (x : list Z) :
  min_size (params instance) = max_size (params instance) ->
  Z.of_nat (length x) = max_size (params instance) ->
  forallb (fits (dtype (params instance))) x = true ->
  (dtype (params instance) = UINT8 \/ max_size (params instance) = 1 ->
     encode_decode endianness instance (VList x)
     = Ret (mkDataField (params instance) (SList x))) /\
  ((1 < nb_bytes (dtype (params instance)))%nat ->
   1 < max_size (params instance) ->
     encode_decode endianness instance (VList x) = Raise ListTooLongError).
Proof.
  destruct instance as [p s]. simpl. intros Hfix Hlen Hfits.
  destruct (struct_pack_fits endianness (dtype p) x Hfits) as [bs Hbs].
  pose proof (struct_pack_length endianness _ _ _ Hbs) as Hbl.
  assert (H1 : __set__ endianness (mkDataField p s) (VList x)
               = (Ret tt, mkDataField p (SList x))).
  { apply __set___full_list; [discriminate | reflexivity | exact Hfix | exact Hlen]. }
  assert (H2 : to_bytes endianness (mkDataField p (SList x)) = Ret bs).
  { unfold to_bytes. simpl. rewrite Hbs. reflexivity. }
  unfold encode_decode. rewrite H1, H2. split.
  - intros Hcase.
    assert (H3 : _format_to_list endianness (VBytes bs) (mkDataField p (SList x))
                 = Ret x).
    { destruct (Nat.eq_dec (length x) 1%nat) as [E1|E1].
      - destruct x as [|v [|? ?]]; try discriminate E1.
        simpl in Hbs, Hfits. rewrite andb_true_r in Hfits. rewrite Hfits in Hbs.
        injection Hbs as <-. rewrite app_nil_r.
        rewrite _format_to_list_one by (simpl; apply encode_int_length).
        rewrite decode_encode_int by exact Hfits. reflexivity.
      - destruct Hcase as [Hd|Hm]; [|lia].
        rewrite Hd in Hbs, Hbl. simpl in Hbl.
        rewrite _format_to_list_u8 by (simpl; rewrite Hd; simpl; lia).
        f_equal. apply (struct_pack_u8 endianness), Hbs. }
    rewrite (__set___full_list endianness p (SList x) (VBytes bs) x);
      [reflexivity | discriminate | exact H3 | exact Hfix | exact Hlen].
  - intros Hw Hn.
    assert (H3 : _format_to_list endianness (VBytes bs) (mkDataField p (SList x))
                 = Ret (map Z_of_byte bs)).
    { apply _format_to_list_u8. simpl. nia. }
    rewrite __set___unfold, H3 by discriminate. simpl.
    assert (E : (Z.of_nat (length (map Z_of_byte bs)) >? max_size p) = true).
    { apply Z.gtb_lt. rewrite length_map, Hbl. nia. }
    rewrite E. reflexivity.
Qed.

(** An integer assigned to a field is the list of that one integer. *)
Lemma encode_decode_int (endianness : Endianness) (instance : DataField) (v : Z) :
  encode_decode endianness instance (VInt v)
  = encode_decode endianness instance (VList [v]).
Proof. reflexivity. Qed.

Lemma encode_decode_fixed_size_witness :
  encode_decode big three_bytes_field (VList [1; 2; 255])
  = Ret (mkDataField (mkParams UINT8 3 3) (SList [1; 2; 255])) /\
  encode_decode little one_word_field (VList [305419896])
  = Ret (mkDataField (mkParams UINT32 1 1) (SList [305419896])) /\
  encode_decode big two_shorts_field (VList [258; 772]) = Raise ListTooLongError.
Proof.
  split; [|split].
  - apply (proj1 (encode_decode_fixed_size big three_bytes_field [1; 2; 255]
                    eq_refl eq_refl eq_refl)).
    left. reflexivity.
  - apply (proj1 (encode_decode_fixed_size little one_word_field [305419896]
                    eq_refl eq_refl eq_refl)).
    right. reflexivity.
  - apply (proj2 (encode_decode_fixed_size big two_shorts_field [258; 772]
                    eq_refl eq_refl eq_refl)).
    + simpl. lia.
    + simpl. lia.
Defined.

(** * Further properties *)

(** ** Field parameters *)

(** X1: with [size] given, [Params] is accepted exactly when [size] is at
    least 1, whatever [min_size] and [max_size] say, and the field then has
    a fixed size; so [size = 0] is refused although [min_size = 0] is not.
    Without [size], it is accepted exactly when
    [0 <= min_size <= max_size] and [1 <= max_size]. *)
Theorem Params_init_accepts (d : Dtype) (s mn mx : Z) :
  (1 <= s ->
     Params_init d (Some s) mn mx = Some (mkParams d s s) /\
     has_variable_size (mkParams d s s) = false) /\
  (s < 1 -> Params_init d (Some s) mn mx = None) /\
  (forall p : Params,
     Params_init d None mn mx = Some p
     <-> (0 <= mn /\ 1 <= mx /\ mn <= mx) /\ p = mkParams d mn mx).
Proof.
  unfold Params_init, has_variable_size. simpl. split; [|split].
  - intros Hs.
    assert (E1 : (s <? 0) = false) by (apply Z.ltb_ge; lia).
    assert (E2 : (s <? 1) = false) by (apply Z.ltb_ge; lia).
    rewrite E1, E2, Z.ltb_irrefl, Z.eqb_refl. split; reflexivity.
  - intros Hs. destruct (s <? 0); [reflexivity|].
    assert (E2 : (s <? 1) = true) by (apply Z.ltb_lt; lia).
    rewrite E2. reflexivity.
  - intros p.
    destruct (Z.ltb_spec mn 0); [split; [discriminate | intros [? _]; lia]|].
    destruct (Z.ltb_spec mx 1); [split; [discriminate | intros [? _]; lia]|].
    destruct (Z.ltb_spec mx mn); [split; [discriminate | intros [? _]; lia]|].
    split.
    + intros [= <-]. split; [lia | reflexivity].
    + intros [_ ->]. reflexivity.
Qed.

Lemma Params_init_accepts_witness :
  Params_init UINT8 (Some 32) (-5) 0 = Some (mkParams UINT8 32 32) /\
  Params_init UINT8 (Some 0) 0 1 = None /\
  Params_init UINT8 None 0 255 = Some (mkParams UINT8 0 255).
Proof.
  split; [|split].
  - apply (proj1 (Params_init_accepts UINT8 32 (-5) 0)). lia.
  - apply (proj1 (proj2 (Params_init_accepts UINT8 0 0 1))). lia.
  - apply (proj2 (proj2 (Params_init_accepts UINT8 0 0 255))).
    split; [lia | reflexivity].
Defined.

(** ** Serialization *)

Lemma fits_in_range (d : Dtype) (v : Z) : fits d v = true <-> in_range d v.
Proof.
  unfold fits, in_range. rewrite andb_true_iff, Z.leb_le, Z.ltb_lt. tauto.
Qed.

Lemma forallb_fits (d : Dtype) (l : list Z) :
  forallb (fits d) l = true <-> Forall (in_range d) l.
Proof.
  rewrite forallb_forall, List.Forall_forall.
  split; intros H x Hx; apply fits_in_range, H, Hx.
Qed.

Lemma struct_pack_Some (endianness : Endianness) (d : Dtype) (l : list Z) :
  (exists bs, struct_pack endianness d l = Some bs) <-> forallb (fits d) l = true.
Proof.
  split; [|apply struct_pack_fits].
  induction l as [|v l IH]; simpl; intros [bs H]; [reflexivity|].
  destruct (fits d v); [|discriminate]. simpl.
  destruct (struct_pack endianness d l) as [bs'|]; [|discriminate].
  apply IH. eexists; reflexivity.
Qed.

Lemma struct_pack_None (endianness : Endianness) (d : Dtype) (l : list Z) :
  struct_pack endianness d l = None <-> forallb (fits d) l = false.
Proof.
  pose proof (struct_pack_Some endianness d l) as H.
  destruct (struct_pack endianness d l) as [bs|], (forallb (fits d) l);
    split; intros E; try reflexivity; try discriminate.
  - assert (true = false -> False) by discriminate.
    apply proj1 in H. specialize (H (ex_intro _ bs eq_refl)). discriminate H.
  - apply proj2 in H. destruct (H eq_refl) as [? ?]. discriminate.
Qed.

(** X2: what [to_bytes] returns has exactly as many bytes as [__len__]
    reports: the number of stored elements times the width of the dtype. *)
Theorem to_bytes_length (endianness : Endianness) (instance : DataField)
    (bs : bytes) :
  to_bytes endianness instance = Ret bs ->
  Z.of_nat (length bs) = __len__ instance /\
  Z.of_nat (length bs)
  = element_count instance * Z.of_nat (nb_bytes (dtype (params instance))).
Proof.
  unfold to_bytes, __len__, element_count. intros H.
  destruct (_value instance) as [|l]; [discriminate|].
  destruct (struct_pack endianness (dtype (params instance)) l) as [bs'|] eqn:E;
    [|discriminate].
  injection H as <-. apply struct_pack_length in E. rewrite E.
  split; apply Nat2Z.inj_mul.
Qed.

Lemma to_bytes_length_witness :
  Z.of_nat (length [Byte.x01; Byte.x00; Byte.x02; Byte.x00])
  = __len__ (mkDataField (mkParams UINT16 2 2) (SList [1; 2])).
Proof.
  exact (proj1 (to_bytes_length little (mkDataField (mkParams UINT16 2 2) (SList [1; 2]))
                  [Byte.x01; Byte.x00; Byte.x02; Byte.x00] eq_refl)).
Defined.

(** X3: [to_bytes] returns bytes exactly when the field holds a list whose
    elements are all in the range of the dtype; it raises [DataValueError]
    exactly when the list has an element out of that range (negative or too
    large), and [AssertionError] exactly when the field holds [AUTO]. *)
Theorem to_bytes_outcome (endianness : Endianness) (instance : DataField) :
  ((exists bs, to_bytes endianness instance = Ret bs)
   <-> exists l, _value instance = SList l /\
                 Forall (in_range (dtype (params instance))) l) /\
  (to_bytes endianness instance = Raise DataValueError
   <-> exists l, _value instance = SList l /\
                 ~ Forall (in_range (dtype (params instance))) l) /\
  (to_bytes endianness instance = Raise AssertionError
   <-> _value instance = SAuto).
Proof.
  unfold to_bytes. destruct (_value instance) as [|l].
  - split; [|split].
    + split; [intros [bs H]; discriminate | intros (l & H & _); discriminate].
    + split; [discriminate | intros (l & H & _); discriminate].
    + split; reflexivity.
  - destruct (struct_pack endianness (dtype (params instance)) l) as [bs|] eqn:E.
    + assert (Hf : Forall (in_range (dtype (params instance))) l).
      { apply forallb_fits. apply (proj1 (struct_pack_Some endianness _ _)).
        eexists; exact E. }
      split; [|split].
      * split; [intros _; exists l; split; [reflexivity|exact Hf] | intros _; eexists; reflexivity].
      * split; [discriminate | intros (l' & [= <-] & Hn); contradiction].
      * split; discriminate.
    + assert (Hf : ~ Forall (in_range (dtype (params instance))) l).
      { intros Hf. apply forallb_fits in Hf.
        apply (proj1 (struct_pack_None endianness _ _)) in E. congruence. }
      split; [|split].
      * split; [intros [bs H]; discriminate | intros (l' & [= <-] & Hn); contradiction].
      * split; [intros _; exists l; split; [reflexivity|exact Hf] | reflexivity].
      * split; discriminate.
Qed.

(** ** Assignment and reading back *)

Lemma padded_eq (p : Params) (l : list Z) :
  padded p l = l ++ replicate (Z.to_nat (min_length p - Z.of_nat (length l))) 0.
Proof.
  unfold padded, min_length.
  destruct (_ >? 0) eqn:E; [reflexivity|].
  rewrite Z.gtb_ltb in E. apply Z.ltb_ge in E.
  replace (Z.to_nat _) with 0%nat by lia. symmetry. apply app_nil_r.
Qed.

Lemma padded_id (p : Params) (l : list Z) :
  min_length p <= Z.of_nat (length l) -> padded p l = l.
Proof.
  intros H. rewrite padded_eq.
  replace (Z.to_nat _) with 0%nat by lia. apply app_nil_r.
Qed.

Lemma min_length_le_max (p : Params) : Params_ok p -> min_length p <= max_size p.
Proof.
  intros (H0 & H1 & H2). unfold min_length. destruct (has_variable_size p); lia.
Qed.

Lemma __set___list_in_bounds (endianness : Endianness) (p : Params)
    (s : StoredValue) (l : list Z) :
  min_length p <= Z.of_nat (length l) <= max_size p ->
  __set__ endianness (mkDataField p s) (VList l)
  = (Ret tt, mkDataField p (SList l)).
Proof.
  intros [Hlo Hhi]. rewrite __set___unfold by discriminate. simpl.
  assert (E : (Z.of_nat (length l) >? max_size p) = false)
    by (rewrite Z.gtb_ltb; apply Z.ltb_ge; lia).
  rewrite E, padded_id by exact Hlo. reflexivity.
Qed.

Lemma __set___stored (endianness : Endianness) (instance instance' : DataField)
    (value : DataFieldInputData) :
  Params_ok (params instance) ->
  __set__ endianness instance value = (Ret tt, instance') ->
  instance' = mkDataField (params instance) SAuto \/
  exists l, instance' = mkDataField (params instance) (SList l) /\
            min_length (params instance) <= Z.of_nat (length l)
              <= max_size (params instance).
Proof.
  intros Hok Hset.
  assert (Hd : value = AUTO \/ value <> AUTO)
    by (destruct value; [left; reflexivity | right; discriminate ..]).
  destruct Hd as [->|Hv].
  - left. simpl in Hset. injection Hset as <-. reflexivity.
  - right. rewrite __set___unfold in Hset by exact Hv.
    destruct (_format_to_list endianness value instance) as [l|e]; [|discriminate].
    destruct (_ >? _) eqn:E in Hset; [discriminate|].
    injection Hset as <-. rewrite Z.gtb_ltb in E. apply Z.ltb_ge in E.
    exists (padded (params instance) l). split; [reflexivity|].
    apply (padded_length (params instance) l Hok E).
Qed.

(** X4: after an assignment that succeeded, writing back what the field
    reads as leaves the field as it is.  This holds for an
    [ArrayDataField], and for a [ScalarDataField] of one element.  A
    [ScalarDataField] reads without [IndexError] whenever its size is fixed
    or its [min_size] is at least 1. *)
Theorem get_set_roundtrip (endianness : Endianness) (instance instance' : DataField)
    (value : DataFieldInputData) :
  Params_ok (params instance) ->
  __set__ endianness instance value = (Ret tt, instance') ->
  (exists g, __get__ ArrayDataField instance' = Ret g /\
             __set__ endianness instance' g = (Ret tt, instance')) /\
  (min_size (params instance) = 1 -> max_size (params instance) = 1 ->
   exists g, __get__ ScalarDataField instance' = Ret g /\
             __set__ endianness instance' g = (Ret tt, instance')) /\
  (has_variable_size (params instance) = false \/ 1 <= min_size (params instance) ->
   exists g, __get__ ScalarDataField instance' = Ret g).
Proof.
  intros Hok Hset.
  destruct (__set___stored endianness _ _ _ Hok Hset) as [->|(l & -> & Hl)].
  - split; [|split].
    + exists AUTO. split; reflexivity.
    + intros _ _. exists AUTO. split; reflexivity.
    + intros _. exists AUTO. reflexivity.
  - split; [|split].
    + exists (VList l). split; [reflexivity|].
      apply __set___list_in_bounds. exact Hl.
    + intros Hmin Hmax.
      assert (Hml : min_length (params instance) = 1).
      { unfold min_length. destruct (has_variable_size _); lia. }
      destruct l as [|v [|? ?]]; simpl in Hl; try lia.
      exists (VInt v). split; [reflexivity|].
      change (__set__ endianness (mkDataField (params instance) (SList [v])) (VList [v])
              = (Ret tt, mkDataField (params instance) (SList [v]))).
      apply __set___list_in_bounds. simpl. lia.
    + intros Hcase.
      assert (H1 : 1 <= min_length (params instance)).
      { destruct Hok as (H0 & H1 & H2). unfold min_length.
        destruct Hcase as [->|Hm]; [lia|].
        destruct (has_variable_size _); lia. }
      destruct l as [|v l]; simpl in Hl; [lia|].
      exists (VInt v). reflexivity.
Qed.

Lemma get_set_roundtrip_witness :
  __get__ ArrayDataField (snd (__set__ little three_bytes_field (VList [7])))
  = Ret (VList [7; 0; 0]) /\
  __set__ little (snd (__set__ little three_bytes_field (VList [7]))) (VList [7; 0; 0])
  = (Ret tt, snd (__set__ little three_bytes_field (VList [7]))) /\
  __get__ ScalarDataField (snd (__set__ little optional_bytes_field (VList [])))
  = Raise IndexError.
Proof.
  assert (Hok : Params_ok (params three_bytes_field))
    by (unfold Params_ok; simpl; lia).
  destruct (proj1 (get_set_roundtrip little three_bytes_field
                     (snd (__set__ little three_bytes_field (VList [7])))
                     (VList [7]) Hok eq_refl)) as (g & Hg & Hs).
  split; [reflexivity|]. split; [|reflexivity].
  injection Hg as <-. exact Hs.
Defined.

Lemma forallb_fits_padded (p : Params) (l : list Z) :
  forallb (fits (dtype p)) (padded p l) = forallb (fits (dtype p)) l.
Proof.
  rewrite padded_eq, forallb_app.
  assert (E : forall n, forallb (fits (dtype p)) (replicate n 0) = true).
  { induction n as [|n IH]; simpl; [reflexivity|].
    rewrite IH, andb_true_r. apply fits_in_range. unfold in_range.
    split; [lia|]. apply Z.pow_pos_nonneg; lia. }
  rewrite E. apply andb_true_r.
Qed.

(** X5: an assignment looks at the number of elements only.  A list of at
    most [max_size] elements is accepted whatever its elements are; an
    element outside the range of the dtype shows at serialization, where
    [to_bytes] then raises [DataValueError]. *)
Theorem assignment_checks_size_only (endianness : Endianness) (instance : DataField)
    (l : list Z) :
  Z.of_nat (length l) <= max_size (params instance) ->
  exists instance',
    __set__ endianness instance (VList l) = (Ret tt, instance') /\
    ((exists bs, to_bytes endianness instance' = Ret bs)
     <-> Forall (in_range (dtype (params instance))) l) /\
    (~ Forall (in_range (dtype (params instance))) l ->
     to_bytes endianness instance' = Raise DataValueError).
Proof.
  intros Hlen. eexists. split.
  - rewrite __set___unfold by discriminate. simpl.
    assert (E : (Z.of_nat (length l) >? max_size (params instance)) = false)
      by (rewrite Z.gtb_ltb; apply Z.ltb_ge; lia).
    rewrite E. reflexivity.
  - unfold to_bytes. simpl.
    destruct (struct_pack endianness (dtype (params instance))
                (padded (params instance) l)) as [bs|] eqn:E.
    + assert (Hf : Forall (in_range (dtype (params instance))) l).
      { apply forallb_fits. rewrite <- forallb_fits_padded.
        apply (proj1 (struct_pack_Some endianness _ _)). eexists; exact E. }
      split; [split; [intros _; exact Hf | intros _; eexists; reflexivity]|].
      intros Hn; contradiction.
    + assert (Hf : ~ Forall (in_range (dtype (params instance))) l).
      { intros Hf. apply forallb_fits in Hf. rewrite <- forallb_fits_padded in Hf.
        apply (proj1 (struct_pack_None endianness _ _)) in E. congruence. }
      split; [split; [intros [bs H]; discriminate | intros Hf'; contradiction]|].
      reflexivity.
Qed.

Lemma assignment_checks_size_only_witness :
  __set__ little three_bytes_field (VList [256; -1])
  = (Ret tt, mkDataField (mkParams UINT8 3 3) (SList [256; -1; 0])) /\
  to_bytes little (mkDataField (mkParams UINT8 3 3) (SList [256; -1; 0]))
  = Raise DataValueError.
Proof.
  destruct (assignment_checks_size_only little three_bytes_field [256; -1])
    as (i & Hs & _ & Hn); [simpl; lia|].
  split; [reflexivity|].
  assert (Hi : i = mkDataField (mkParams UINT8 3 3) (SList [256; -1; 0])).
  { assert (Hs' : (Ret tt, i) =
                  (Ret tt, mkDataField (mkParams UINT8 3 3) (SList [256; -1; 0])))
      by (rewrite <- Hs; reflexivity).
    injection Hs' as ->. reflexivity. }
  rewrite <- Hi. apply Hn.
  intros Hf. apply List.Forall_inv in Hf. unfold in_range in Hf. simpl in Hf. lia.
Defined.

(** ** Byte buffers in fields of unsigned bytes *)

Lemma decode_int_single (endianness : Endianness) (b : Byte.byte) :
  decode_int endianness [b] = Z_of_byte b.
Proof. unfold decode_int. destruct endianness; simpl; lia. Qed.

Lemma _format_to_list_bytes_u8 (endianness : Endianness) (instance : DataField)
    (b : bytes) :
  dtype (params instance) = UINT8 ->
  _format_to_list endianness (VBytes b) instance = Ret (map Z_of_byte b).
Proof.
  intros Hd. destruct (Nat.eq_dec (length b) (nb_bytes (dtype (params instance))))
    as [E|E].
  - rewrite _format_to_list_one by exact E. rewrite Hd in E.
    destruct b as [|x [|? ?]]; try discriminate E.
    rewrite decode_int_single. reflexivity.
  - apply _format_to_list_u8, E.
Qed.

Lemma struct_pack_app (endianness : Endianness) (d : Dtype) (l1 l2 : list Z)
    (b1 b2 : bytes) :
  struct_pack endianness d l1 = Some b1 ->
  struct_pack endianness d l2 = Some b2 ->
  struct_pack endianness d (l1 ++ l2) = Some (b1 ++ b2).
Proof.
  revert b1. induction l1 as [|v l1 IH]; intros b1 H1 H2; simpl in *.
  - injection H1 as <-. exact H2.
  - destruct (fits d v); [|discriminate].
    destruct (struct_pack endianness d l1) as [b1'|]; [|discriminate].
    injection H1 as <-. rewrite (IH b1' eq_refl H2), app_assoc. reflexivity.
Qed.

Lemma struct_pack_u8_bytes (endianness : Endianness) (b : bytes) :
  struct_pack endianness UINT8 (map Z_of_byte b) = Some b.
Proof.
  induction b as [|x b IH]; simpl; [reflexivity|].
  pose proof (Z_of_byte_range x) as Hx.
  assert (Hf : fits UINT8 (Z_of_byte x) = true).
  { apply fits_in_range. unfold in_range. simpl. lia. }
  rewrite Hf, IH.
  assert (E : encode_int endianness UINT8 (Z_of_byte x) = [x]).
  { unfold encode_int. destruct endianness; simpl;
      rewrite Z.mod_small, byte_of_Z_of_byte by lia; reflexivity. }
  rewrite E. reflexivity.
Qed.

Lemma struct_pack_u8_zeros (endianness : Endianness) (n : nat) :
  struct_pack endianness UINT8 (replicate n 0) = Some (replicate n Byte.x00).
Proof.
  induction n as [|n IH]; simpl; [reflexivity|].
  rewrite IH. destruct endianness; reflexivity.
Qed.

(** X6: a byte buffer of at most [max_size] bytes assigned to a field of
    unsigned bytes is stored byte by byte, under either endianness;
    [to_bytes] gives the buffer back, followed by the zero bytes of the
    padding when the buffer was shorter than the least length of the
    field. *)
Theorem u8_bytes_roundtrip (endianness : Endianness) (instance : DataField)
    (b : bytes) :
  dtype (params instance) = UINT8 ->
  Z.of_nat (length b) <= max_size (params instance) ->
  exists instance',
    __set__ endianness instance (VBytes b) = (Ret tt, instance') /\
    to_bytes endianness instance'
    = Ret (b ++ replicate
                  (Z.to_nat (min_length (params instance) - Z.of_nat (length b)))
                  Byte.x00) /\
    (min_length (params instance) <= Z.of_nat (length b) ->
     to_bytes endianness instance' = Ret b).
Proof.
  intros Hd Hlen. eexists. split; [|split].
  - rewrite __set___unfold, _format_to_list_bytes_u8 by (exact Hd || discriminate).
    assert (E : (Z.of_nat (length (map Z_of_byte b)) >? max_size (params instance))
                = false).
    { rewrite length_map, Z.gtb_ltb. apply Z.ltb_ge. lia. }
    rewrite E. reflexivity.
  - unfold to_bytes. simpl. rewrite padded_eq, length_map, Hd.
    rewrite (struct_pack_app endianness UINT8 _ _ _ _
               (struct_pack_u8_bytes endianness b)
               (struct_pack_u8_zeros endianness _)).
    reflexivity.
  - intros Hmin. unfold to_bytes. simpl.
    rewrite padded_id by (rewrite length_map; exact Hmin).
    rewrite Hd, struct_pack_u8_bytes. reflexivity.
Qed.

Lemma u8_bytes_roundtrip_witness :
  to_bytes big (snd (__set__ big three_bytes_field (VBytes [Byte.xff; Byte.x10])))
  = Ret [Byte.xff; Byte.x10; Byte.x00].
Proof.
  destruct (u8_bytes_roundtrip big three_bytes_field [Byte.xff; Byte.x10] eq_refl)
    as (i & Hs & Hb & _); [simpl; lia|].
  assert (Hi : i = snd (__set__ big three_bytes_field (VBytes [Byte.xff; Byte.x10])))
    by (rewrite Hs; reflexivity).
  rewrite <- Hi. exact Hb.
Defined.

(** ** Lists shared with the caller *)

Lemma __set__list_refines (endianness : Endianness) (s : store) (p : Params)
    (old : option positive) (sv : StoredValue) (a : positive) (l : list Z) :
  s !! a = Some l ->
  match __set__ endianness (mkDataField p sv) (VList l) with
  | (Raise e, _) =>
      __set__list s (mkFieldObj p old) a = Some (Raise e, s, mkFieldObj p old)
  | (Ret _, instance') =>
      exists s',
        __set__list s (mkFieldObj p old) a = Some (Ret tt, s', mkFieldObj p (Some a)) /\
        s' = <[a := padded p l]> s /\
        _value instance' = SList (padded p l)
  end.
Proof.
  intros Ha. rewrite __set___unfold by discriminate. unfold __set__list.
  rewrite Ha. simpl.
  destruct (Z.of_nat (length l) >? max_size p); [reflexivity|].
  eexists. split; [reflexivity|]. split; [|reflexivity].
  unfold padded. destruct (_ >? 0); [reflexivity|].
  symmetry. apply insert_id, Ha.
Qed.

Lemma __set__list_ok (s : store) (p : Params) (old : option positive)
    (a : positive) (l : list Z) :
  s !! a = Some l ->
  Z.of_nat (length l) <= max_size p ->
  __set__list s (mkFieldObj p old) a
  = Some (Ret tt, <[a := padded p l]> s, mkFieldObj p (Some a)).
Proof.
  intros Ha Hlen. unfold __set__list. rewrite Ha. simpl.
  assert (E : (Z.of_nat (length l) >? max_size p) = false)
    by (rewrite Z.gtb_ltb; apply Z.ltb_ge; lia).
  rewrite E. unfold padded.
  destruct (_ >? 0); [reflexivity|].
  rewrite insert_id by exact Ha. reflexivity.
Qed.

(** X7: when a list object is assigned, the field keeps that very object:
    the outcome and the stored elements are those of the assignment by
    value, the padding is appended to the caller's list in place, no other
    list of the store changes, and what the caller does to the list
    afterwards shows in the field. *)
Theorem __set__list_shares (endianness : Endianness) (s : store) (p : Params)
    (old : option positive) (sv : StoredValue) (a : positive) (l : list Z) :
  s !! a = Some l ->
  Z.of_nat (length l) <= max_size p ->
  exists s' f',
    __set__list s (mkFieldObj p old) a = Some (Ret tt, s', f') /\
    obj_value f' = Some a /\
    s' !! a = Some (padded p l) /\
    obj_content s' f' = Some (padded p l) /\
    _value (snd (__set__ endianness (mkDataField p sv) (VList l))) = SList (padded p l) /\
    (forall a', a' <> a -> s' !! a' = s !! a') /\
    (forall l', obj_content (<[a := l']> s') f' = Some l').
Proof.
  intros Ha Hlen.
  pose proof (__set__list_refines endianness s p old sv a l Ha) as H.
  rewrite __set___unfold in H |- * by discriminate. simpl in H |- *.
  assert (E : (Z.of_nat (length l) >? max_size p) = false)
    by (rewrite Z.gtb_ltb; apply Z.ltb_ge; lia).
  rewrite E in H |- *. destruct H as (s' & Hs & -> & _).
  exists (<[a := padded p l]> s), (mkFieldObj p (Some a)).
  split; [exact Hs|]. split; [reflexivity|].
  split; [apply lookup_insert_eq|].
  split; [apply lookup_insert_eq|].
  split; [reflexivity|]. split.
  - intros a' Hne. apply lookup_insert_ne. congruence.
  - intros l'. unfold obj_content. simpl. apply lookup_insert_eq.
Qed.

Lemma __set__list_shares_witness :
  exists s' f',
    __set__list {[1%positive := [7]]} (mkFieldObj (mkParams UINT8 3 3) None) 1%positive
    = Some (Ret tt, s', f') /\
    obj_value f' = Some 1%positive /\
    s' !! 1%positive = Some [7; 0; 0].
Proof.
  destruct (__set__list_shares little {[1%positive := [7]]} (mkParams UINT8 3 3)
              None SAuto 1%positive [7]) as (s' & f' & Hs & Hv & Hc & _);
    [reflexivity | simpl; lia |].
  exists s', f'. split; [exact Hs|]. split; [exact Hv | exact Hc].
Defined.

(** X8: two fields of fixed sizes [n1 < n2] given the same list object: the
    second assignment pads the list to [n2] elements, and the first field,
    which holds the same object, is left with more elements than its
    [max_size]. *)
Theorem shared_list_overflows (s : store) (d1 d2 : Dtype) (n1 n2 : Z)
    (a : positive) (l : list Z) :
  s !! a = Some l ->
  Z.of_nat (length l) <= n1 ->
  0 <= n1 < n2 ->
  exists s1 f1 s2 f2 stored,
    __set__list s (mkFieldObj (mkParams d1 n1 n1) None) a = Some (Ret tt, s1, f1) /\
    __set__list s1 (mkFieldObj (mkParams d2 n2 n2) None) a = Some (Ret tt, s2, f2) /\
    obj_content s2 f1 = Some stored /\
    obj_content s2 f2 = Some stored /\
    Z.of_nat (length stored) = n2 /\
    max_size (obj_params f1) < Z.of_nat (length stored).
Proof.
  intros Ha Hlen Hn.
  set (p1 := mkParams d1 n1 n1). set (p2 := mkParams d2 n2 n2).
  assert (Hl1 : Z.of_nat (length (padded p1 l)) = n1).
  { rewrite padded_eq, length_app, length_replicate.
    unfold min_length, has_variable_size. simpl. rewrite Z.eqb_refl. simpl. lia. }
  assert (Hl2 : Z.of_nat (length (padded p2 (padded p1 l))) = n2).
  { rewrite padded_eq, length_app, length_replicate.
    unfold min_length, has_variable_size. simpl. rewrite Z.eqb_refl. simpl. lia. }
  exists (<[a := padded p1 l]> s), (mkFieldObj p1 (Some a)),
         (<[a := padded p2 (padded p1 l)]> (<[a := padded p1 l]> s)),
         (mkFieldObj p2 (Some a)), (padded p2 (padded p1 l)).
  split; [|split; [|split; [|split; [|split]]]].
  - apply __set__list_ok; [exact Ha | simpl; lia].
  - apply __set__list_ok; [apply lookup_insert_eq | simpl; lia].
  - unfold obj_content. simpl. apply lookup_insert_eq.
  - unfold obj_content. simpl. apply lookup_insert_eq.
  - exact Hl2.
  - simpl. lia.
Qed.

Lemma shared_list_overflows_witness :
  exists s1 f1 s2 f2 stored,
    __set__list {[1%positive := [7]]} (mkFieldObj (mkParams UINT8 2 2) None) 1%positive
    = Some (Ret tt, s1, f1) /\
    __set__list s1 (mkFieldObj (mkParams UINT8 4 4) None) 1%positive
    = Some (Ret tt, s2, f2) /\
    obj_content s2 f1 = Some stored /\
    obj_content s2 f2 = Some stored /\
    Z.of_nat (length stored) = 4 /\
    max_size (obj_params f1) < Z.of_nat (length stored).
Proof.
  apply (shared_list_overflows {[1%positive := [7]]} UINT8 UINT8 2 4 1%positive [7]);
    [reflexivity | simpl; lia | lia].
Defined.

(** ** The dispatcher, beyond the error statuses *)

Section DispatcherFacts.

Variable Req : Type.
Variable msg : MessageLayer Req.

Lemma all_to_bytes_Forall2 (rs : list L2Response) (bs : list bytes) :
  all_to_bytes Req msg rs = Ret bs
  <-> Forall2 (fun r b => response_to_bytes msg r = Ret b) rs bs.
Proof.
  revert bs. induction rs as [|r rs IH]; intros bs; simpl.
  - split.
    + intros [= <-]. constructor.
    + intros H. inversion H. reflexivity.
  - split.
    + intros H. destruct (response_to_bytes msg r) as [b|e] eqn:Er; [|discriminate].
      destruct (all_to_bytes Req msg rs) as [bs'|e]; [|discriminate].
      injection H as <-. constructor; [exact Er | apply IH; reflexivity].
    + intros H. inversion H as [|r' b rs' bs' Hr Hrs]; subst.
      rewrite Hr. apply IH in Hrs. rewrite Hrs. reflexivity.
Qed.

Lemma all_to_bytes_raise (rs1 rs2 : list L2Response) (bs1 : list bytes)
    (r : L2Response) (e : exn) :
  Forall2 (fun r b => response_to_bytes msg r = Ret b) rs1 bs1 ->
  response_to_bytes msg r = Raise e ->
  all_to_bytes Req msg (rs1 ++ r :: rs2) = Raise e.
Proof.
  intros H Hr. induction H as [|r1 b1 rs1 bs1 H1 _ IH]; simpl.
  - rewrite Hr. reflexivity.
  - rewrite H1, IH. reflexivity.
Qed.

Variable process_l2_request : Handler Req.

Lemma _process_input_handler (m : BaseModel) (data : bytes) (rq request : Req) :
  from_bytes msg data = Ret rq ->
  has_valid_crc msg rq = true ->
  instantiate_subclass msg (id_value msg rq) data = Ret request ->
  _process_input Req msg process_l2_request m data =
  match process_l2_request m request with
  | (Raise (L2ProcessingError st), m') => (Ret (One (mkL2Response st [])), m')
  | other => other
  end.
Proof.
  intros Hp Hc Hr. unfold _process_input. rewrite Hp, Hc. simpl. rewrite Hr.
  reflexivity.
Qed.

(** X9: what a handler returns for a well-formed request is what the
    dispatcher returns, with the model as the handler left it;
    [process_input] serializes a single response to one byte string, and a
    list of responses to the list of their serializations, in the same
    order and of the same length (an empty list included). *)
Theorem process_input_returns (m m' : BaseModel) (data : bytes) (rq request : Req)
    (rs : Responses) :
  from_bytes msg data = Ret rq ->
  has_valid_crc msg rq = true ->
  instantiate_subclass msg (id_value msg rq) data = Ret request ->
  process_l2_request m request = (Ret rs, m') ->
  _process_input Req msg process_l2_request m data = (Ret rs, m') /\
  (forall r b, rs = One r -> response_to_bytes msg r = Ret b ->
     process_input Req msg process_l2_request m data = (Ret (OneRaw b), m')) /\
  (forall l bs, rs = Many l ->
     Forall2 (fun r b => response_to_bytes msg r = Ret b) l bs ->
     process_input Req msg process_l2_request m data = (Ret (ManyRaw bs), m') /\
     length bs = length l).
Proof.
  intros Hp Hc Hr Hh.
  assert (E : _process_input Req msg process_l2_request m data = (Ret rs, m')).
  { rewrite (_process_input_handler m data rq request Hp Hc Hr), Hh. reflexivity. }
  split; [exact E|]. split.
  - intros r b -> Hb. unfold process_input. rewrite E, Hb. reflexivity.
  - intros l bs -> Hbs. split.
    + unfold process_input. rewrite E.
      apply all_to_bytes_Forall2 in Hbs. rewrite Hbs. reflexivity.
    + symmetry. apply (Forall2_length _ _ _ Hbs).
Qed.

(** X10: when the serialization of a response raises, [process_input]
    raises that exception (for a list: the one of the first response that
    fails) and the answer is lost, but the model stays as the handler left
    it. *)
Theorem process_input_serialization_fails (m m' : BaseModel) (data : bytes)
    (rq request : Req) (rs : Responses) (e : exn) :
  from_bytes msg data = Ret rq ->
  has_valid_crc msg rq = true ->
  instantiate_subclass msg (id_value msg rq) data = Ret request ->
  process_l2_request m request = (Ret rs, m') ->
  (forall r, rs = One r -> response_to_bytes msg r = Raise e ->
     process_input Req msg process_l2_request m data = (Raise e, m')) /\
  (forall l1 r l2 bs1, rs = Many (l1 ++ r :: l2) ->
     Forall2 (fun r b => response_to_bytes msg r = Ret b) l1 bs1 ->
     response_to_bytes msg r = Raise e ->
     process_input Req msg process_l2_request m data = (Raise e, m')).
Proof.
  intros Hp Hc Hr Hh.
  assert (E : _process_input Req msg process_l2_request m data = (Ret rs, m')).
  { rewrite (_process_input_handler m data rq request Hp Hc Hr), Hh. reflexivity. }
  split.
  - intros r -> Hb. unfold process_input. rewrite E, Hb. reflexivity.
  - intros l1 r l2 bs1 -> H1 Hb. unfold process_input. rewrite E.
    rewrite (all_to_bytes_raise l1 l2 bs1 r e H1 Hb). reflexivity.
Qed.

Lemma _process_input_state (m : BaseModel) (data : bytes) :
  snd (_process_input Req msg process_l2_request m data) = m \/
  exists request, snd (_process_input Req msg process_l2_request m data)
                  = snd (process_l2_request m request).
Proof.
  unfold _process_input.
  destruct (from_bytes msg data) as [rq|e]; [|left; reflexivity].
  destruct (negb _); [left; reflexivity|].
  destruct (instantiate_subclass msg _ data) as [request|e].
  - right. exists request.
    destruct (process_l2_request m request) as [[rs|e] m']; [reflexivity|].
    destruct e; reflexivity.
  - left. destruct e; reflexivity.
Qed.

Lemma process_input_state (m : BaseModel) (data : bytes) :
  snd (process_input Req msg process_l2_request m data)
  = snd (_process_input Req msg process_l2_request m data).
Proof.
  unfold process_input.
  destruct (_process_input Req msg process_l2_request m data) as [[rs|e] m'];
    [|reflexivity].
  destruct rs as [r|l].
  - destruct (response_to_bytes msg r); reflexivity.
  - destruct (all_to_bytes Req msg l); reflexivity.
Qed.

(** X11: the dispatcher changes the model through the handler only: a
    property of the model that every handler call preserves is preserved by
    [_process_input] and by [process_input], on every input and whether
    they return or raise. *)
Theorem process_input_preserves (P : BaseModel -> Prop) (m : BaseModel)
    (data : bytes) :
  (forall m0 request, P m0 -> P (snd (process_l2_request m0 request))) ->
  P m ->
  P (snd (_process_input Req msg process_l2_request m data)) /\
  P (snd (process_input Req msg process_l2_request m data)).
Proof.
  intros Hh Hm.
  assert (H : P (snd (_process_input Req msg process_l2_request m data))).
  { destruct (_process_input_state m data) as [->|[request ->]];
      [exact Hm | apply Hh, Hm]. }
  split; [exact H|]. rewrite process_input_state. exact H.
Qed.

End DispatcherFacts.

Lemma process_input_returns_witness :
  process_input bytes sample_layer
    (fun m _ => (Ret (Many [mkL2Response REQ_OK [Byte.x01]; mkL2Response REQ_OK []]), m))
    fresh_model [Byte.x01; Byte.x00; Byte.x00; Byte.x00]
  = (Ret (ManyRaw [[Byte.x01]; []]), fresh_model).
Proof.
  apply (proj2 (proj2 (process_input_returns bytes sample_layer
                 (fun m _ => (Ret (Many [mkL2Response REQ_OK [Byte.x01];
                                         mkL2Response REQ_OK []]), m))
                 fresh_model fresh_model [Byte.x01; Byte.x00; Byte.x00; Byte.x00]
                 _ _ _ eq_refl eq_refl eq_refl eq_refl)) _ _ eq_refl).
  repeat constructor.
Defined.

Lemma process_input_serialization_fails_witness :
  process_input bytes strict_layer
    (fun m _ => (Ret (Many [mkL2Response REQ_OK [Byte.x01]; mkL2Response REQ_OK []]),
                 invalidate_session m))
    (model_with_slot 2) [Byte.x01; Byte.x00; Byte.x00; Byte.x00]
  = (Raise DataValueError, invalidate_session (model_with_slot 2)).
Proof.
  apply (proj2 (process_input_serialization_fails bytes strict_layer
                 (fun m _ => (Ret (Many [mkL2Response REQ_OK [Byte.x01];
                                         mkL2Response REQ_OK []]),
                              invalidate_session m))
                 (model_with_slot 2) (invalidate_session (model_with_slot 2))
                 [Byte.x01; Byte.x00; Byte.x00; Byte.x00]
                 _ _ _ DataValueError eq_refl eq_refl eq_refl eq_refl)
           [mkL2Response REQ_OK [Byte.x01]] (mkL2Response REQ_OK []) []
           [[Byte.x01]] eq_refl).
  - repeat constructor.
  - reflexivity.
Defined.

Lemma process_input_preserves_witness :
  activate_encryption
    (snd (process_input bytes sample_layer guarded_handler fresh_model
            [Byte.x01; Byte.x00; Byte.x00; Byte.x00])) = true.
Proof.
  apply (proj2 (process_input_preserves bytes sample_layer guarded_handler
                  (fun m => activate_encryption m = true) fresh_model
                  [Byte.x01; Byte.x00; Byte.x00; Byte.x00]
                  ltac:(intros m0 rq H; unfold guarded_handler;
                        destruct (check_access_privileges m0 [] 1); exact H)
                  eq_refl)).
Defined.

(** X12: an exception raised while the frame is parsed, or raised by the
    resolution of the request class other than the two the dispatcher
    catches, leaves [process_input] as it is; no handler is called (the
    outcome is the same for every handler) and the model is unchanged. *)
Theorem process_input_early_errors (Req : Type) (msg : MessageLayer Req)
    (m : BaseModel) (data : bytes) (e : exn) :
  (from_bytes msg data = Raise e ->
   forall handler : Handler Req,
     process_input Req msg handler m data = (Raise e, m)) /\
  (forall rq : Req,
     from_bytes msg data = Ret rq ->
     has_valid_crc msg rq = true ->
     instantiate_subclass msg (id_value msg rq) data = Raise e ->
     e <> SubclassNotFoundError -> e <> NoValidSubclassError ->
     forall handler : Handler Req,
       process_input Req msg handler m data = (Raise e, m)).
Proof.
  split.
  - intros Hp handler. unfold process_input, _process_input. rewrite Hp. reflexivity.
  - intros rq Hp Hc Hr H1 H2 handler.
    unfold process_input, _process_input. rewrite Hp, Hc. simpl. rewrite Hr.
    destruct e; try reflexivity; contradiction.
Qed.

Lemma process_input_early_errors_witness :
  process_input bytes picky_layer failing_handler fresh_model []
  = (Raise ValueError, fresh_model).
Proof.
  exact (proj1 (process_input_early_errors bytes picky_layer fresh_model []
                  ValueError) eq_refl failing_handler).
Defined.

(** ** Access privileges and the session *)

(** X13: once the session is invalidated, be it by [invalidate_session] or
    by [power_off], and in a model just built, the access check of an
    encrypting model raises [RuntimeError] for every register value: no
    value grants access until a pairing key slot is recorded again.  A model
    with encryption off keeps passing the check. *)
Theorem check_access_privileges_unpaired (m : BaseModel) (name : list Byte.byte)
    (v : Z) (default_config : ConfigurationObjectImpl)
    (r i : option ConfigurationObjectImpl) (ib : bytes) (bi : option (list bool)) :
  check_access_privileges (invalidate_session m) name v
  = (if activate_encryption m then Raise RuntimeError else Ret tt) /\
  check_access_privileges (power_off m) name v
  = (if activate_encryption m then Raise RuntimeError else Ret tt) /\
  check_access_privileges (__init__ default_config r i true ib bi) name v
  = Raise RuntimeError /\
  check_access_privileges (__init__ default_config r i false ib bi) name v = Ret tt.
Proof.
  unfold check_access_privileges. simpl.
  destruct (activate_encryption m); repeat split.
Qed.

Lemma check_result_cases (m : BaseModel) (name : list Byte.byte) (v : Z) :
  check_access_privileges m name v = Ret tt <->
  activate_encryption m = false \/
  (slot_active m /\ Z.testbit v (pairing_key_slot m) = true).
Proof.
  unfold check_access_privileges.
  destruct (activate_encryption m); simpl; [|split; [left; reflexivity|reflexivity]].
  destruct (negb _) eqn:G.
  - split; [discriminate|]. intros [H|[H _]]; [discriminate|].
    apply slot_guard in H. congruence.
  - apply slot_guard in G. pose proof G as [Hlo _].
    rewrite (land_pow2_eqb v _ Hlo).
    destruct (Z.testbit v (pairing_key_slot m)); simpl.
    + split; [intros _; right; split; [exact G|reflexivity] | reflexivity].
    + split; [discriminate|]. intros [H|[_ H]]; discriminate.
Qed.

(** X14: the check passes on the AND of two register values exactly when it
    passes on each of them: a slot has access under the effective
    configuration iff both the irreversible and the reversible value grant
    it.  Setting further bits of a value never takes access away. *)
Theorem check_access_privileges_land (m : BaseModel) (name : list Byte.byte)
    (a b : Z) :
  (check_access_privileges m name (Z.land a b) = Ret tt
   <-> check_access_privileges m name a = Ret tt /\
       check_access_privileges m name b = Ret tt) /\
  (check_access_privileges m name a = Ret tt ->
   check_access_privileges m name (Z.lor a b) = Ret tt).
Proof.
  rewrite !check_result_cases, Z.land_spec, Z.lor_spec, andb_true_iff, orb_true_iff.
  tauto.
Qed.

Lemma check_access_privileges_land_witness :
  check_access_privileges (model_with_slot 1) [] (Z.lor 2 8) = Ret tt.
Proof.
  exact (proj2 (check_access_privileges_land (model_with_slot 1) [] 2 8) eq_refl).
Defined.

(** ** The cache of the effective configuration *)

(** X15: once the cache is filled, a change of a bank does not show in
    [config]: the value cached before keeps being returned, and the model is
    not touched by the read.  It shows after [power_off], whose next read
    computes the AND from the banks as they then are. *)
Theorem config_stale_until_power_off (m : BaseModel)
    (c r' : ConfigurationObjectImpl) :
  _config m = Some c ->
  config (set_r_config r' m) = (c, set_r_config r' m) /\
  fst (config (power_off (set_r_config r' m))) = cfg_and (i_config m) r' /\
  _config (snd (config (power_off (set_r_config r' m))))
  = Some (cfg_and (i_config m) r').
Proof.
  intros Hc. split; [|split].
  - unfold config. simpl. rewrite Hc. reflexivity.
  - reflexivity.
  - reflexivity.
Qed.

Lemma config_stale_until_power_off_witness :
  fst (config (set_r_config {[0 := 0]} one_register_model)) !! 0 = Some 255 /\
  fst (config (power_off (set_r_config {[0 := 0]} one_register_model))) !! 0 = Some 0.
Proof.
  destruct (config_stale_until_power_off one_register_model {[0 := 255]} {[0 := 0]}
              eq_refl) as (H1 & H2 & _).
  rewrite H1, H2. split; reflexivity.
Defined.

(** ** Encryption switched off: the tag *)

(** X16: with encryption off, [decrypt_command] does not look at the tag:
    two commands that differ in their last [ENCRYPTION_TAG_LEN] bytes only
    give the same plaintext.  A command of at most that many bytes gives
    the empty plaintext, and the answer is never [None]. *)
Theorem decrypt_command_ignores_tag (ENCRYPTION_TAG_LEN : Z) (ops : SessionOps)
    (m : BaseModel) (body tag1 tag2 : bytes) :
  0 < ENCRYPTION_TAG_LEN ->
  activate_encryption m = false ->
  Z.of_nat (length tag1) = ENCRYPTION_TAG_LEN ->
  Z.of_nat (length tag2) = ENCRYPTION_TAG_LEN ->
  decrypt_command ENCRYPTION_TAG_LEN ops m (body ++ tag1) = (Ret (Some body), m) /\
  decrypt_command ENCRYPTION_TAG_LEN ops m (body ++ tag2) = (Ret (Some body), m) /\
  (forall command : bytes,
     Z.of_nat (length command) <= ENCRYPTION_TAG_LEN ->
     decrypt_command ENCRYPTION_TAG_LEN ops m command = (Ret (Some []), m)) /\
  (forall command : bytes,
     fst (decrypt_command ENCRYPTION_TAG_LEN ops m command) <> Ret None).
Proof.
  intros Hpos Hoff H1 H2. unfold decrypt_command. rewrite Hoff.
  assert (Hcut : forall t, Z.of_nat (length t) = ENCRYPTION_TAG_LEN ->
                           slice_to (body ++ t) (- ENCRYPTION_TAG_LEN) = body).
  { intros t Ht. rewrite slice_to_neg by exact Hpos.
    rewrite length_app.
    replace (length body + length t - Z.to_nat ENCRYPTION_TAG_LEN)%nat
      with (length body) by lia.
    apply take_app_length. }
  split; [rewrite (Hcut tag1 H1); reflexivity|].
  split; [rewrite (Hcut tag2 H2); reflexivity|]. split.
  - intros command Hlen. rewrite slice_to_neg by exact Hpos.
    replace (length command - Z.to_nat ENCRYPTION_TAG_LEN)%nat with 0%nat by lia.
    reflexivity.
  - intros command. simpl. discriminate.
Qed.

Lemma decrypt_command_ignores_tag_witness :
  decrypt_command 2 broken_session diagnostic_model [Byte.x41; Byte.xde; Byte.xad]
  = (Ret (Some [Byte.x41]), diagnostic_model) /\
  decrypt_command 2 broken_session diagnostic_model [Byte.x41; Byte.x00; Byte.x00]
  = (Ret (Some [Byte.x41]), diagnostic_model).
Proof.
  destruct (decrypt_command_ignores_tag 2 broken_session diagnostic_model
              [Byte.x41] [Byte.xde; Byte.xad] [Byte.x00; Byte.x00]
              eq_refl eq_refl eq_refl eq_refl) as (H1 & H2 & _).
  split; [exact H1 | exact H2].
Defined.

(** ** [spi_send] *)

Lemma bytes_of_list_of_bytes (b : bytes) : bytes_of_list (list_of_bytes b) = Ret b.
Proof.
  unfold bytes_of_list, list_of_bytes.
  assert (E : forallb (fun x => (0 <=? x) && (x <? 256)) (map Z_of_byte b) = true).
  { apply forallb_forall. intros x Hx. apply in_map_iff in Hx as (y & <- & _).
    pose proof (Z_of_byte_range y).
    apply andb_true_iff. split; [apply Z.leb_le | apply Z.ltb_lt]; lia. }
  rewrite E. f_equal. rewrite map_map.
  rewrite <- (map_id b) at 2. apply map_ext. intros y. apply byte_of_Z_of_byte.
Qed.

(** X17: [spi_send] on a list of ints in 0..255 is [spi_send] on the bytes
    of that list: it drives the transport with the same bytes, leaves the
    model in the same state, and returns the same answer as a list of ints
    (which converts back to the answer in bytes).  A list with an element
    outside 0..255 raises [ValueError] and an argument of another type
    [TypeError], both before the transport is driven. *)
Theorem spi_send_list
    (process_spi_data : BaseModel -> bytes -> res bytes * BaseModel)
    (m : BaseModel) (l : list Z) :
  (Forall (fun x => 0 <= x < 256) l ->
   forall (r : bytes) (m' : BaseModel),
     spi_send process_spi_data m (SpiBytes (map byte_of_Z l)) = (Ret (SpiBytes r), m') ->
     spi_send process_spi_data m (SpiList l) = (Ret (SpiList (list_of_bytes r)), m') /\
     bytes_of_list (list_of_bytes r) = Ret r) /\
  (Forall (fun x => 0 <= x < 256) l ->
   forall (e : exn) (m' : BaseModel),
     spi_send process_spi_data m (SpiBytes (map byte_of_Z l)) = (Raise e, m') ->
     spi_send process_spi_data m (SpiList l) = (Raise e, m')) /\
  (~ Forall (fun x => 0 <= x < 256) l ->
   spi_send process_spi_data m (SpiList l) = (Raise ValueError, m)) /\
  spi_send process_spi_data m SpiOther = (Raise TypeError, m).
Proof.
  assert (Hb : Forall (fun x => 0 <= x < 256) l ->
               bytes_of_list l = Ret (map byte_of_Z l)).
  { intros Hf. unfold bytes_of_list.
    assert (E : forallb (fun x => (0 <=? x) && (x <? 256)) l = true).
    { apply forallb_forall. intros x Hx.
      pose proof (proj1 (List.Forall_forall _ _) Hf x Hx) as Hr. simpl in Hr.
      apply andb_true_iff. split; [apply Z.leb_le | apply Z.ltb_lt]; lia. }
    rewrite E. reflexivity. }
  split; [|split; [|split]].
  - intros Hf r m' H. simpl in *. rewrite (Hb Hf).
    destruct (_spi_send_bytes process_spi_data m (map byte_of_Z l)) as [[x|e] m0];
      [|discriminate].
    injection H as <- <-. split; [reflexivity | apply bytes_of_list_of_bytes].
  - intros Hf e m' H. simpl in *. rewrite (Hb Hf).
    destruct (_spi_send_bytes process_spi_data m (map byte_of_Z l)) as [[x|e0] m0];
      [discriminate|].
    injection H as <- <-. reflexivity.
  - intros Hn. simpl. unfold bytes_of_list.
    destruct (forallb _ l) eqn:E; [|reflexivity].
    exfalso. apply Hn. apply List.Forall_forall. intros x Hx.
    pose proof (proj1 (forallb_forall _ _) E x Hx) as Hx'.
    apply andb_true_iff in Hx' as [H1 H2].
    apply Z.leb_le in H1. apply Z.ltb_lt in H2. lia.
  - reflexivity.
Qed.

Lemma spi_send_list_witness :
  spi_send echo_spi fresh_model (SpiList [1; 2; 255])
  = (Ret (SpiList [255; 2; 1]), fresh_model) /\
  spi_send echo_spi fresh_model (SpiList [1; 256]) = (Raise ValueError, fresh_model).
Proof.
  split.
  - apply (proj1 (spi_send_list echo_spi fresh_model [1; 2; 255])
             ltac:(repeat constructor; lia)
             [Byte.xff; Byte.x02; Byte.x01] fresh_model eq_refl).
  - apply (proj1 (proj2 (proj2 (spi_send_list echo_spi fresh_model [1; 256])))).
    intros Hf. apply List.Forall_inv_tail, List.Forall_inv in Hf. lia.
Defined.

(** ** Hexadecimal rendering *)

Lemma hex_value_digit (v : Z) : 0 <= v < 16 -> hex_value (hex_digit v) = v.
Proof.
  intros H. destruct v as [|p|p]; [reflexivity| |lia].
  do 4 (try destruct p as [p|p|]); try lia; reflexivity.
Qed.

Lemma parse_hex_snoc (s : list ascii) (c : ascii) :
  parse_hex (s ++ [c]) = 16 * parse_hex s + hex_value c.
Proof. unfold parse_hex. rewrite fold_left_app. reflexivity. Qed.

Lemma parse_hex_zeros (n : nat) (s : list ascii) :
  parse_hex (replicate n "0"%char ++ s) = parse_hex s.
Proof.
  unfold parse_hex. rewrite fold_left_app. f_equal.
  induction n as [|n IH]; simpl; [reflexivity|exact IH].
Qed.

Lemma parse_hex_fuel (fuel : nat) (v : Z) :
  0 <= v < 2 ^ Z.of_nat fuel -> parse_hex (hex_fuel fuel v) = v.
Proof.
  revert v. induction fuel as [|fuel IH]; intros v Hv.
  - simpl in Hv. assert (v = 0) by lia. subst. reflexivity.
  - cbn [hex_fuel]. destruct (Z.ltb_spec v 16) as [Hs|Hb].
    + unfold parse_hex. simpl. apply hex_value_digit. lia.
    + rewrite parse_hex_snoc, IH.
      * rewrite hex_value_digit by (apply Z.mod_pos_bound; lia).
        pose proof (Z.div_mod v 16). lia.
      * rewrite Nat2Z.inj_succ, Z.pow_succ_r in Hv by lia.
        split; [apply Z.div_pos; lia|].
        apply Z.div_lt_upper_bound; lia.
Qed.

Lemma hex_fuel_length (fuel : nat) (n : nat) (v : Z) :
  (1 <= fuel)%nat -> (1 <= n)%nat -> 0 <= v < 16 ^ Z.of_nat n ->
  (1 <= length (hex_fuel fuel v) <= n)%nat.
Proof.
  revert n v. induction fuel as [|fuel IH]; intros n v Hf Hn Hv; [lia|].
  cbn [hex_fuel]. destruct (Z.ltb_spec v 16) as [Hs|Hb]; [simpl; lia|].
  rewrite length_app. simpl.
  destruct n as [|[|n]]; [lia| simpl in Hv; lia |].
  destruct fuel as [|fuel]; [simpl; lia|].
  assert (H : (1 <= length (hex_fuel (S fuel) (v / 16)) <= S n)%nat).
  { apply IH; [lia | lia |].
    rewrite (Nat2Z.inj_succ (S n)), Z.pow_succ_r in Hv by lia.
    split; [apply Z.div_pos; lia|]. apply Z.div_lt_upper_bound; lia. }
  lia.
Qed.

Lemma hex_spec (n : nat) (v : Z) :
  (1 <= n)%nat -> 0 <= v < 16 ^ Z.of_nat n ->
  parse_hex (hex v) = v /\ (1 <= length (hex v) <= n)%nat.
Proof.
  intros Hn Hv. unfold hex. split.
  - apply parse_hex_fuel. rewrite Nat2Z.inj_succ, Z2Nat.id by apply Z.log2_nonneg.
    destruct (Z.eq_dec v 0) as [->|Hne]; [simpl; lia|].
    split; [lia|]. apply Z.log2_spec. lia.
  - apply hex_fuel_length; [lia | exact Hn | exact Hv].
Qed.

(** X18: the rendering of a scalar field whose value is in the range of its
    dtype has exactly two characters per byte of the dtype, all of them
    hexadecimal digits that read back as the value; so different values
    render differently.  A field left at [AUTO] renders as [AUTO]. *)
Theorem hexstr_scalar (p : Params) (v : Z) (rest : list Z) :
  in_range (dtype p) v ->
  exists s,
    hexstr ScalarDataField (mkDataField p (SList (v :: rest))) = Ret s /\
    Z.of_nat (length s) = 2 * Z.of_nat (nb_bytes (dtype p)) /\
    parse_hex s = v /\
    hexstr ScalarDataField (mkDataField p SAuto) = Ret ["A"; "U"; "T"; "O"]%char.
Proof.
  intros Hr. unfold in_range in Hr.
  set (n := (2 * nb_bytes (dtype p))%nat).
  assert (Hn : (1 <= n)%nat) by (pose proof (nb_bytes_pos (dtype p)); lia).
  assert (Hv : 0 <= v < 16 ^ Z.of_nat n).
  { replace (16 ^ Z.of_nat n) with (2 ^ (8 * Z.of_nat (nb_bytes (dtype p))));
      [exact Hr|].
    change 16 with (2 ^ 4). rewrite <- Z.pow_mul_r by lia. f_equal. lia. }
  destruct (hex_spec n v Hn Hv) as [Hp Hl].
  eexists. split; [reflexivity|]. unfold format_0x.
  assert (E : (v <? 0) = false) by (apply Z.ltb_ge; lia).
  rewrite E. unfold zfill. split; [|split].
  - rewrite length_app, length_replicate. simpl. unfold n in Hl. lia.
  - rewrite parse_hex_zeros. exact Hp.
  - reflexivity.
Qed.

Lemma hexstr_scalar_witness :
  exists s,
    hexstr ScalarDataField (mkDataField (mkParams UINT16 1 1) (SList [2748])) = Ret s /\
    Z.of_nat (length s) = 4 /\
    parse_hex s = 2748.
Proof.
  destruct (hexstr_scalar (mkParams UINT16 1 1) 2748 [])
    as (s & Hs & Hl & Hp & _); [unfold in_range; simpl; lia|].
  exists s. split; [exact Hs|]. split; [exact Hl | exact Hp].
Defined.

(** ** Construction of a field *)

Lemma __set___accept (endianness : Endianness) (p : Params) (s : StoredValue)
    (l : list Z) :
  Z.of_nat (length l) <= max_size p ->
  __set__ endianness (mkDataField p s) (VList l)
  = (Ret tt, mkDataField p (SList (padded p l))).
Proof.
  intros Hl. rewrite __set___unfold by discriminate.
  cbn [_format_to_list params].
  assert (E : (Z.of_nat (length l) >? max_size p) = false)
    by (rewrite Z.gtb_ltb; apply Z.ltb_ge; lia).
  rewrite E. reflexivity.
Qed.

Lemma __set___reject (endianness : Endianness) (p : Params) (s : StoredValue)
    (l : list Z) :
  max_size p < Z.of_nat (length l) ->
  __set__ endianness (mkDataField p s) (VList l)
  = (Raise ListTooLongError, mkDataField p s).
Proof.
  intros Hl. rewrite __set___unfold by discriminate.
  cbn [_format_to_list params].
  assert (E : (Z.of_nat (length l) >? max_size p) = true) by (apply Z.gtb_lt; lia).
  rewrite E. reflexivity.
Qed.

(** X19: a field built from an int is always built, whatever the int: it
    holds the int followed by zeroes, [max 1 min_length] elements in all,
    so that a field that may be empty starts with one element.  A field
    built from a list longer than [max_size] is not built. *)
Theorem DataField__init___int (endianness : Endianness) (p : Params) (v : Z) :
  Params_ok p ->
  DataField__init__ endianness (VInt v) p
  = Ret (mkDataField p (SList (v :: replicate (Z.to_nat (min_length p - 1)) 0))) /\
  Z.of_nat (length (v :: replicate (Z.to_nat (min_length p - 1)) 0))
  = Z.max 1 (min_length p) /\
  (forall l : list Z,
     max_size p < Z.of_nat (length l) ->
     DataField__init__ endianness (VList l) p = Raise ListTooLongError).
Proof.
  intros (H0 & H1 & H2). unfold DataField__init__. split; [|split].
  - change (__set__ endianness (mkDataField p SAuto) (VInt v))
      with (__set__ endianness (mkDataField p SAuto) (VList [v])).
    rewrite __set___accept by (simpl; lia).
    rewrite padded_eq. reflexivity.
  - cbn [length]. rewrite length_replicate. lia.
  - intros l Hl. rewrite __set___reject by exact Hl. reflexivity.
Qed.

Lemma DataField__init___int_witness :
  DataField__init__ little (VInt 0) (mkParams UINT8 0 255)
  = Ret (mkDataField (mkParams UINT8 0 255) (SList [0])) /\
  DataField__init__ little (VInt 0) (mkParams UINT8 32 32)
  = Ret (mkDataField (mkParams UINT8 32 32) (SList (replicate 32 0))).
Proof.
  split.
  - apply (proj1 (DataField__init___int little (mkParams UINT8 0 255) 0
                    ltac:(unfold Params_ok; simpl; lia))).
  - apply (proj1 (DataField__init___int little (mkParams UINT8 32 32) 0
                    ltac:(unfold Params_ok; simpl; lia))).
Defined.
